(** * Storefront checkout flow of [server.js]

    A shallow embedding of the Express handlers of [server.js]
    ([POST /api/create-order], [POST /api/verify-payment],
    [GET /download/:token]) together with the parts of Node they call:
    [crypto.createHmac('sha256', key).update(s).digest('hex')], the two
    flat JSON files, [parseInt] and the property order of a plain object.

    Modelling conventions.
    - A JavaScript string is a [string] of bytes (its UTF-8 encoding).
    - A JavaScript number that holds an integer is a [Z]; the product and
      the sum of two such numbers are rounded to the 53-bit significand of
      a double ([round53]), which is the identity up to [2^53].
    - [products.json] and [payments.json] are well formed for the types
      [Product] and [PaymentRecord]; the ledger object only has own
      properties (order identifiers are not names of [Object.prototype]).
    - The gateway ([razorpay.orders.create]), [nanoid] and [Date.now] are
      inputs of the handlers.  [console.warn] and [console.error] are not
      modelled. *)

From Stdlib Require Import ZArith List String Ascii Bool Lia DecimalString.
From Stdlib Require DecimalPos.
Import ListNotations.
Local Open Scope Z_scope.
Local Open Scope string_scope.

(** ** SHA-256 and HMAC (FIPS 180-4, RFC 2104), as used through [crypto] *)

Module Sha256.

Local Open Scope list_scope.

Definition w32 (x : Z) : Z := Z.land x 0xFFFFFFFF.

Definition add32 (x y : Z) : Z := w32 (x + y).

Definition rotr (n x : Z) : Z :=
  Z.lor (Z.shiftr x n) (w32 (Z.shiftl x (32 - n))).

Definition Ch (x y z : Z) : Z :=
  Z.lxor (Z.land x y) (Z.land (Z.lxor x 0xFFFFFFFF) z).

Definition Maj (x y z : Z) : Z :=
  Z.lxor (Z.lxor (Z.land x y) (Z.land x z)) (Z.land y z).

Definition Sigma0 (x : Z) : Z :=
  Z.lxor (Z.lxor (rotr 2 x) (rotr 13 x)) (rotr 22 x).

Definition Sigma1 (x : Z) : Z :=
  Z.lxor (Z.lxor (rotr 6 x) (rotr 11 x)) (rotr 25 x).

Definition sigma0 (x : Z) : Z :=
  Z.lxor (Z.lxor (rotr 7 x) (rotr 18 x)) (Z.shiftr x 3).

Definition sigma1 (x : Z) : Z :=
  Z.lxor (Z.lxor (rotr 17 x) (rotr 19 x)) (Z.shiftr x 10).

(** The first 64 primes, by trial division. *)
Definition is_prime (n : Z) : bool :=
  forallb (fun d => negb (n mod Z.of_nat d =? 0)%Z) (seq 2 (Z.to_nat n - 2)).

Definition primes : list Z :=
  filter is_prime (map Z.of_nat (seq 2 310)).

(** Integer cube root, one bit at a time from bit [bits - 1] down. *)
Fixpoint icbrt (bits : nat) (n r : Z) : Z :=
  match bits with
  | O => r
  | S b =>
      let c := r + 2 ^ Z.of_nat b in
      icbrt b n (if (c * c * c <=? n)%Z then c else r)
  end.

(** The round constants: the first 32 bits of the fractional parts of
    the cube roots of the first 64 primes. *)
Definition K : list Z :=
  map (fun p => w32 (icbrt 36 (p * 2 ^ 96) 0)) primes.

(** The initial hash value: the first 32 bits of the fractional parts of
    the square roots of the first 8 primes. *)
Definition H0 : list Z :=
  map (fun p => w32 (Z.sqrt (p * 2 ^ 64))) (firstn 8 primes).

(** Big-endian encoding of [x] on [n] bytes. *)
Fixpoint be_bytes (n : nat) (x : Z) : list Z :=
  match n with
  | O => []
  | S m => Z.land (Z.shiftr x (8 * Z.of_nat m)) 0xFF :: be_bytes m x
  end.

(** Padding: a [1] bit, zeros up to 56 modulo 64, the bit length on 8 bytes. *)
Definition pad (msg : list Z) : list Z :=
  let len := Z.of_nat (List.length msg) in
  let zeros := Z.to_nat ((55 - len) mod 64) in
  msg ++ 0x80 :: repeat 0 zeros ++ be_bytes 8 (8 * len).

(** The big-endian 32-bit words of a byte sequence. *)
Fixpoint words (bs : list Z) : list Z :=
  match bs with
  | a :: b :: c :: d :: rest =>
      (Z.shiftl a 24 + Z.shiftl b 16 + Z.shiftl c 8 + d) :: words rest
  | _ => []
  end.

(** The message schedule, most recent word first: [rev_ws] holds
    W(t-1), W(t-2), ...; each step adds W(t). *)
Fixpoint schedule (n : nat) (rev_ws : list Z) : list Z :=
  match n with
  | O => rev_ws
  | S m =>
      let w := add32 (add32 (sigma1 (nth 1 rev_ws 0)) (nth 6 rev_ws 0))
                     (add32 (sigma0 (nth 14 rev_ws 0)) (nth 15 rev_ws 0)) in
      schedule m (w :: rev_ws)
  end.

Record regs := Regs { ra : Z; rb : Z; rc : Z; rd : Z;
                      re : Z; rf : Z; rg : Z; rh : Z }.

Definition round (s : regs) (kw : Z * Z) : regs :=
  let t1 := add32 (add32 (add32 (rh s) (Sigma1 (re s)))
                         (add32 (Ch (re s) (rf s) (rg s)) (fst kw))) (snd kw) in
  let t2 := add32 (Sigma0 (ra s)) (Maj (ra s) (rb s) (rc s)) in
  Regs (add32 t1 t2) (ra s) (rb s) (rc s) (add32 (rd s) t1) (re s) (rf s) (rg s).

Definition regs_of (h : list Z) : regs :=
  Regs (nth 0 h 0) (nth 1 h 0) (nth 2 h 0) (nth 3 h 0)
       (nth 4 h 0) (nth 5 h 0) (nth 6 h 0) (nth 7 h 0).

Definition compress (h : list Z) (block : list Z) : list Z :=
  let ws := rev (schedule 48 (rev block)) in
  let s0 := regs_of h in
  let s := fold_left round (combine K ws) s0 in
  [ add32 (ra s0) (ra s); add32 (rb s0) (rb s);
    add32 (rc s0) (rc s); add32 (rd s0) (rd s);
    add32 (re s0) (re s); add32 (rf s0) (rf s);
    add32 (rg s0) (rg s); add32 (rh s0) (rh s) ].

(** One 16-word block per unit of fuel. *)
Fixpoint blocks (fuel : nat) (h : list Z) (ws : list Z) : list Z :=
  match fuel with
  | O => h
  | S m =>
      match ws with
      | [] => h
      | _ => blocks m (compress h (firstn 16 ws)) (skipn 16 ws)
      end
  end.

Definition sha256 (msg : list Z) : list Z :=
  let ws := words (pad msg) in
  flat_map (be_bytes 4) (blocks (List.length ws) H0 ws).

Definition xor_pad (c : Z) (key : list Z) : list Z :=
  map (fun b => Z.lxor b c) key.

(** HMAC with block size 64: a longer key is hashed first, a shorter
    one is padded with zeros. *)
Definition hmac (key msg : list Z) : list Z :=
  let k0 := if (64 <? Z.of_nat (List.length key))%Z then sha256 key else key in
  let k := k0 ++ repeat 0 (64 - List.length k0)%nat in
  sha256 (xor_pad 0x5c k ++ sha256 (xor_pad 0x36 k ++ msg)).

Definition bytes_of_string (s : string) : list Z :=
  map (fun c => Z.of_N (N_of_ascii c)) (list_ascii_of_string s).

Definition hex_digit (d : Z) : ascii :=
  if (d <? 10)%Z then ascii_of_N (Z.to_N (48 + d))
  else ascii_of_N (Z.to_N (87 + d)).

Fixpoint hex (bs : list Z) : string :=
  match bs with
  | [] => EmptyString
  | b :: rest =>
      String (hex_digit (Z.shiftr b 4)) (String (hex_digit (Z.land b 15)) (hex rest))
  end.

Definition sha256_hex (s : string) : string :=
  hex (sha256 (bytes_of_string s)).

(** [crypto.createHmac('sha256', key).update(data).digest('hex')] *)
Definition hmac_sha256_hex (key data : string) : string :=
  hex (hmac (bytes_of_string key) (bytes_of_string data)).

End Sha256.

(** ** JavaScript values and helpers *)

(** [!!s] for a value that is a string or missing ([undefined], [null]). *)
Definition truthy (v : option string) : bool :=
  match v with
  | Some s => negb (s =? "")
  | None => false
  end.

(** [v || d] for a string or missing [v]. *)
Definition or_else (v : option string) (d : string) : string :=
  match v with
  | Some s => if s =? "" then d else s
  | None => d
  end.

(** [v || null] *)
Definition or_null (v : option string) : option string :=
  if truthy v then v else None.

(** The double nearest to an integer (ties to even); overflow to
    [Infinity] is not modelled. *)
Definition round53 (z : Z) : Z :=
  let a := Z.abs z in
  if (a <=? 2 ^ 53)%Z then z
  else
    let e := Z.log2 a - 52 in
    let q := Z.shiftr a e in
    let r := a - Z.shiftl q e in
    let half := Z.shiftl 1 (e - 1) in
    let q' := if (half <? r)%Z || ((r =? half)%Z && Z.odd q) then q + 1 else q in
    Z.sgn z * Z.shiftl q' e.

Definition js_mul (x y : Z) : Z := round53 (x * y).
Definition js_add (x y : Z) : Z := round53 (x + y).

(** [String(n)] for an integer below [10^21]. *)
Definition string_of_Z (z : Z) : string :=
  NilZero.string_of_int (Z.to_int z).

(** A number read back from JSON: [NaN] is written as [null]. *)
Inductive JsonNumber :=
| JNull
| JNum (z : Z).

(** [x < now] where [x] is a property that may be absent: [undefined]
    converts to [NaN] (never smaller), [null] to [0]. *)
Definition js_lt (x : option JsonNumber) (now : Z) : bool :=
  match x with
  | None => false
  | Some JNull => (0 <? now)%Z
  | Some (JNum e) => (e <? now)%Z
  end.

(** *** [parseInt(s, 10)] *)

Definition is_digit (c : ascii) : bool :=
  let n := N_of_ascii c in (48 <=? n)%N && (n <=? 57)%N.

(** Leading white space and line terminators (StrWhiteSpaceChar), in
    UTF-8. *)
Fixpoint skip_ws (fuel : nat) (cs : list Z) : list Z :=
  match fuel with
  | O => cs
  | S n =>
      match cs with
      | 9 :: r | 10 :: r | 11 :: r | 12 :: r | 13 :: r | 32 :: r => skip_ws n r
      | 0xC2 :: 0xA0 :: r => skip_ws n r
      | 0xE1 :: 0x9A :: 0x80 :: r => skip_ws n r
      | 0xE2 :: 0x80 :: b :: r =>
          if ((0x80 <=? b)%Z && (b <=? 0x8A)%Z)
             || (b =? 0xA8)%Z || (b =? 0xA9)%Z || (b =? 0xAF)%Z
          then skip_ws n r else cs
      | 0xE2 :: 0x81 :: 0x9F :: r => skip_ws n r
      | 0xE3 :: 0x80 :: 0x80 :: r => skip_ws n r
      | 0xEF :: 0xBB :: 0xBF :: r => skip_ws n r
      | _ => cs
      end
  end.

(** The value of the longest prefix of decimal digits, [None] when it is
    empty. *)
Fixpoint digits (acc : option Z) (cs : list Z) : option Z :=
  match cs with
  | c :: r =>
      if (48 <=? c)%Z && (c <=? 57)%Z
      then digits (Some (10 * match acc with Some a => a | None => 0 end + (c - 48))) r
      else acc
  | [] => acc
  end.

(** [None] is [NaN]. *)
Definition parseInt10 (s : string) : option Z :=
  let cs := Sha256.bytes_of_string s in
  let cs := skip_ws (List.length cs) cs in
  let '(sign, cs) :=
    match cs with
    | 45 :: r => (-1, r)
    | 43 :: r => (1, r)
    | _ => (1, cs)
    end in
  match digits None cs with
  | Some n => Some (round53 (sign * n))
  | None => None
  end.

(** *** Plain objects used as maps

    The own string keys of an object are enumerated array indices first,
    in ascending order, then the other keys in insertion order. *)

Definition obj (A : Type) := list (string * A).

(** A canonical numeric string below [2^32 - 1]. *)
Definition array_index (k : string) : option Z :=
  match k with
  | EmptyString => None
  | String c r =>
      if forallb is_digit (list_ascii_of_string k)
         && ((k =? "0") || negb (Ascii.eqb c "0"))
      then
        match digits None (Sha256.bytes_of_string k) with
        | Some n => if (n <=? 4294967294)%Z then Some n else None
        | None => None
        end
      else None
  end.

(** [o[k]] *)
Fixpoint obj_get {A} (k : string) (o : obj A) : option A :=
  match o with
  | [] => None
  | (k', v) :: r => if k' =? k then Some v else obj_get k r
  end.

(** Position of a new array-index key [n]: before the first key that is
    no array index or a larger one. *)
Fixpoint insert_index {A} (n : Z) (k : string) (v : A) (o : obj A) : obj A :=
  match o with
  | [] => [(k, v)]
  | (k', v') :: r =>
      match array_index k' with
      | Some m => if (m <? n)%Z then (k', v') :: insert_index n k v r
                  else (k, v) :: o
      | None => (k, v) :: o
      end
  end.

Fixpoint replace {A} (k : string) (v : A) (o : obj A) : obj A :=
  match o with
  | [] => []
  | (k', v') :: r => if k' =? k then (k', v) :: r else (k', v') :: replace k v r
  end.

(** [o[k] = v]: an existing key keeps its place. *)
Definition obj_set {A} (k : string) (v : A) (o : obj A) : obj A :=
  match obj_get k o with
  | Some _ => replace k v o
  | None =>
      match array_index k with
      | Some n => insert_index n k v o
      | None => (o ++ [(k, v)])%list
      end
  end.

(** [Object.values(o)] *)
Definition obj_values {A} (o : obj A) : list A := map snd o.

(** ** Configuration ([process.env]) *)

Record Env := {
  env_PORT : option string;
  env_RAZORPAY_KEY_ID : option string;
  env_RAZORPAY_KEY_SECRET : option string;
  env_BASE_URL : option string;
  env_DOWNLOAD_TOKEN_TTL_MIN : option string
}.

Definition PORT (env : Env) : string := or_else (env_PORT env) (string_of_Z 3000).
Definition RAZORPAY_KEY_ID (env : Env) : string := or_else (env_RAZORPAY_KEY_ID env) "".
Definition RAZORPAY_KEY_SECRET (env : Env) : string :=
  or_else (env_RAZORPAY_KEY_SECRET env) "".
Definition BASE_URL (env : Env) : string :=
  or_else (env_BASE_URL env) ("http://localhost:" ++ PORT env).
Definition DOWNLOAD_TOKEN_TTL_MIN (env : Env) : option Z :=
  parseInt10 (or_else (env_DOWNLOAD_TOKEN_TTL_MIN env) "60").

(** ** Data model *)

Module Product.
Record t := mk {
  id : string;
  title : string;
  description : string;
  priceINR : Z;
  filename : string;
  thumbnail : string
}.
End Product.

Definition sampleProducts : list Product.t :=
  [ Product.mk "prod-ebook-1" "Mastering Productivity (eBook)"
      "100 pages of productivity hacks and templates." 199
      "mastering-productivity.pdf" "/assets/ebook-thumb.png";
    Product.mk "prod-templates-1" "UI Kit & Templates"
      "Collection of 20 modern UI templates (Figma)." 499
      "ui-kit-templates.zip" "/assets/templates-thumb.png" ].

(** The [options] passed to [razorpay.orders.create]. *)
Module Options.
Record t := mk {
  amount : Z;
  currency : string;
  receipt : string;
  payment_capture : Z
}.
End Options.

(** The order object the gateway answers with; the server reads [id]. *)
Module Order.
Record t := mk {
  id : string;
  amount : Z;
  currency : string;
  receipt : string
}.
End Order.

Inductive Status := created | paid.

Record PaymentRecord := {
  status : Status;
  orderId : string;
  productId : string;
  productTitle : string;
  amountINR : Z;
  buyerName : option string;
  buyerEmail : option string;
  createdAt : Z;
  razorpay_payment_id : option string;
  razorpay_signature : option string;
  downloadToken : option string;
  downloadExpiresAt : option JsonNumber
}.

Definition Ledger := obj PaymentRecord.

(** The state the handlers act on: the two JSON files, the paths that
    exist on disk, and the requests sent to the gateway so far (latest
    first). *)
Record World := {
  products_json : list Product.t;
  payments_json : Ledger;
  disk : list string;
  gateway_requests : list Options.t
}.

(** What a handler answers. *)
Inductive Response :=
| json_error (code : Z) (error : string)
| send_text (code : Z) (text : string)
| json_order (order : Order.t)
| json_verified (message downloadUrl product_id product_title : string)
| download (filePath filename : string)
| uncaught_TypeError.

(** The error names of the specification, read off the status code and
    the message of a response. *)
Inductive Failure :=
| InvalidRequest | NotFound | UpstreamError | SignatureInvalid | Expired.

Definition failure_of (r : Response) : option Failure :=
  match r with
  | json_error code msg =>
      if (code =? 400)%Z then
        if msg =? "Invalid signature" then Some SignatureInvalid
        else Some InvalidRequest
      else if (code =? 404)%Z then Some NotFound
      else if (code =? 500)%Z then Some UpstreamError
      else None
  | send_text code _ =>
      if (code =? 404)%Z then Some NotFound
      else if (code =? 410)%Z then Some Expired
      else None
  | _ => None
  end.

Definition succeeds (r : Response) : bool :=
  match r with
  | json_order _ | json_verified _ _ _ _ | download _ _ => true
  | _ => false
  end.

(** ** Handlers, in a state monad over [World] *)

Definition M (A : Type) : Type := World -> A * World.

Definition ret {A} (a : A) : M A := fun w => (a, w).

Definition bind {A B} (m : M A) (f : A -> M B) : M B :=
  fun w => let (a, w') := m w in f a w'.

Declare Scope handler_scope.
Delimit Scope handler_scope with handler.
Notation "x <- m ;; k" := (bind m (fun x => k))
  (at level 61, m at next level, right associativity) : handler_scope.
Notation "m ;; k" := (bind m (fun _ => k))
  (at level 61, right associativity) : handler_scope.
Local Open Scope handler_scope.

Definition readProducts : M (list Product.t) :=
  fun w => (products_json w, w).

Definition readPayments : M Ledger :=
  fun w => (payments_json w, w).

(** The state once [payments.json] has been overwritten. *)
Definition with_payments (w : World) (payments : Ledger) : World :=
  {| products_json := products_json w;
     payments_json := payments;
     disk := disk w;
     gateway_requests := gateway_requests w |}.

Definition writePayments (o : Ledger) : M unit :=
  fun w => (tt, with_payments w o).

Definition existsSync (p : string) : M bool :=
  fun w => (existsb (String.eqb p) (disk w), w).

(** [await razorpay.orders.create(options)]: [None] when the promise is
    rejected. *)
Definition orders_create (gateway : Options.t -> option Order.t)
    (options : Options.t) : M (option Order.t) :=
  fun w => (gateway options,
            {| products_json := products_json w;
               payments_json := payments_json w;
               disk := disk w;
               gateway_requests := options :: gateway_requests w |}).

(** [products.find(p => p.id === productId)] *)
Definition find_product (productId : string) (products : list Product.t)
  : option Product.t :=
  find (fun p => Product.id p =? productId) products.

(** [Object.values(payments).find(p => p.downloadToken === token)] *)
Definition find_by_token (token : string) (payments : Ledger)
  : option PaymentRecord :=
  find (fun p => match downloadToken p with
                 | Some t => t =? token
                 | None => false
                 end) (obj_values payments).

(** [path.join(__dirname, 'downloads', filename)], relative to
    [__dirname]; [.] and [..] segments are not normalised. *)
Definition download_path (filename : string) : string :=
  "downloads/" ++ filename.

(** *** [POST /api/create-order] *)

(** The [options] of the gateway order; the gateway expects the amount
    in paise. *)
Definition order_options (product : Product.t) (now : Z) : Options.t :=
  let amountPaise := js_mul (Product.priceINR product) 100 in
  Options.mk amountPaise "INR"
    ("rcpt_" ++ Product.id product ++ "_" ++ string_of_Z now) 1.

(** The pending record stored under [order.id]. *)
Definition pending_record (order : Order.t) (product : Product.t)
    (buyerName buyerEmail : option string) (now : Z) : PaymentRecord :=
  {| status := created;
     orderId := Order.id order;
     productId := Product.id product;
     productTitle := Product.title product;
     amountINR := Product.priceINR product;
     buyerName := or_null buyerName;
     buyerEmail := or_null buyerEmail;
     createdAt := now;
     razorpay_payment_id := None;
     razorpay_signature := None;
     downloadToken := None;
     downloadExpiresAt := None |}.

(** [now_receipt] and [now_created] are the two readings of [Date.now()],
    before and after the gateway call.  The handler is suspended at the
    gateway call; before it, it only reads the catalog, which no handler
    writes, and it reads the ledger afresh when it resumes, so its effect
    on the files is that of running in one piece at the time it resumes. *)
Definition create_order (productId buyerName buyerEmail : option string)
    (gateway : Options.t -> option Order.t) (now_receipt now_created : Z)
  : M Response :=
  match productId with
  | None => ret (json_error 400 "Missing productId")
  | Some productId =>
      if productId =? "" then ret (json_error 400 "Missing productId")
      else
        products <- readProducts ;;
        match find_product productId products with
        | None => ret (json_error 404 "Product not found")
        | Some product =>
            let options := order_options product now_receipt in
            r <- orders_create gateway options ;;
            match r with
            | None => ret (json_error 500 "Failed to create order")
            | Some order =>
                payments <- readPayments ;;
                writePayments
                  (obj_set (Order.id order)
                     (pending_record order product buyerName buyerEmail now_created)
                     payments) ;;
                ret (json_order order)
            end
        end
  end.

(** *** [POST /api/verify-payment] *)

Definition generated_signature (env : Env) (order_id payment_id : string)
  : string :=
  Sha256.hmac_sha256_hex (RAZORPAY_KEY_SECRET env) (order_id ++ "|" ++ payment_id).

(** [Date.now() + DOWNLOAD_TOKEN_TTL_MIN * 60 * 1000], as it is read back
    from [payments.json]. *)
Definition expiresAt (env : Env) (now : Z) : JsonNumber :=
  match DOWNLOAD_TOKEN_TTL_MIN env with
  | Some ttl => JNum (js_add now (js_mul (js_mul ttl 60) 1000))
  | None => JNull
  end.

(** The five assignments to [local]. *)
Definition mark_paid (env : Env) (local : PaymentRecord)
    (payment_id signature token : string) (now : Z) : PaymentRecord :=
  {| status := paid;
     orderId := orderId local;
     productId := productId local;
     productTitle := productTitle local;
     amountINR := amountINR local;
     buyerName := buyerName local;
     buyerEmail := buyerEmail local;
     createdAt := createdAt local;
     razorpay_payment_id := Some payment_id;
     razorpay_signature := Some signature;
     downloadToken := Some token;
     downloadExpiresAt := Some (expiresAt env now) |}.

(** [token] is the result of [nanoid(32)], [now] of [Date.now()]. *)
Definition verify_payment (env : Env)
    (razorpay_order_id razorpay_payment_id razorpay_signature : option string)
    (token : string) (now : Z) : M Response :=
  match razorpay_order_id, razorpay_payment_id, razorpay_signature with
  | Some order_id, Some payment_id, Some signature =>
      if negb (truthy razorpay_order_id) || negb (truthy razorpay_payment_id)
         || negb (truthy razorpay_signature)
      then ret (json_error 400 "Missing parameters")
      else if negb (generated_signature env order_id payment_id =? signature)
      then ret (json_error 400 "Invalid signature")
      else
        payments <- readPayments ;;
        match obj_get order_id payments with
        | None => ret (json_error 404 "Order not found on server")
        | Some local =>
            let local := mark_paid env local payment_id signature token now in
            writePayments (obj_set order_id local payments) ;;
            products <- readProducts ;;
            match find_product (productId local) products with
            | None => ret uncaught_TypeError
            | Some product =>
                ret (json_verified "Payment verified"
                       (BASE_URL env ++ "/download/" ++ token)
                       (Product.id product) (Product.title product))
            end
        end
  | _, _, _ => ret (json_error 400 "Missing parameters")
  end.

(** *** [GET /download/:token] *)
Definition resolve_download (token : string) (now : Z) : M Response :=
  payments <- readPayments ;;
  match find_by_token token payments with
  | None => ret (send_text 404 "Invalid or expired download link.")
  | Some orderEntry =>
      if js_lt (downloadExpiresAt orderEntry) now
      then ret (send_text 410 "Download link has expired.")
      else
        products <- readProducts ;;
        match find_product (productId orderEntry) products with
        | None => ret (send_text 404 "Product not found")
        | Some product =>
            let filePath := download_path (Product.filename product) in
            found <- existsSync filePath ;;
            if negb found then ret (send_text 404 "File not found on server")
            else ret (download filePath (Product.filename product))
        end
  end.

(** *** Sequences of requests *)

Inductive Request :=
| CreateOrder (productId buyerName buyerEmail : option string)
    (gateway : Options.t -> option Order.t) (now_receipt now_created : Z)
| VerifyPayment (order_id payment_id signature : option string)
    (token : string) (now : Z)
| ResolveDownload (token : string) (now : Z).

Definition handle (env : Env) (q : Request) : M Response :=
  match q with
  | CreateOrder p n e g t1 t2 => create_order p n e g t1 t2
  | VerifyPayment o p s tok now => verify_payment env o p s tok now
  | ResolveDownload tok now => resolve_download tok now
  end.

Fixpoint serve (env : Env) (qs : list Request) (w : World) : World :=
  match qs with
  | [] => w
  | q :: rest => serve env rest (snd (handle env q w))
  end.

(** Start-up: each data file is written when it does not exist. *)
Definition startup (products : option (list Product.t))
    (payments : option Ledger) (files : list string) : World :=
  {| products_json := match products with Some p => p | None => sampleProducts end;
     payments_json := match payments with Some l => l | None => [] end;
     disk := files;
     gateway_requests := [] |}.

(** ** A running example: one order, paid, with a one-minute link *)

Definition demo_env : Env :=
  {| env_PORT := None;
     env_RAZORPAY_KEY_ID := Some "rzp_test_key";
     env_RAZORPAY_KEY_SECRET := Some "s3cr3t";
     env_BASE_URL := None;
     env_DOWNLOAD_TOKEN_TTL_MIN := Some "1" |}.

Definition demo_gateway (options : Options.t) : option Order.t :=
  Some (Order.mk "order_abc" (Options.amount options)
          (Options.currency options) (Options.receipt options)).

Definition demo_signature : string :=
  "ee21698235c31aef5bb049b86d1c00014db7de75dbe78cb4ed9ffa8e90855655".

Definition demo_token : string := "V1StGXR8_Z5jdHi6B-myTV1StGXR8_Z5".

Definition demo_T : Z := 1700000000000.

Definition demo_start : World :=
  startup None None [download_path "mastering-productivity.pdf"].

(** After [create-order] for the e-book. *)
Definition demo_created : World :=
  snd (create_order (Some "prod-ebook-1") (Some "Asha") None demo_gateway
         (demo_T - 5000) (demo_T - 4000) demo_start).

(** The ledger record of the example once it is paid. *)
Definition demo_paid_record : PaymentRecord :=
  {| status := paid; orderId := "order_abc"; productId := "prod-ebook-1";
     productTitle := "Mastering Productivity (eBook)"; amountINR := 199;
     buyerName := Some "Asha"; buyerEmail := None;
     createdAt := 1699999996000;
     razorpay_payment_id := Some "pay_xyz";
     razorpay_signature := Some demo_signature;
     downloadToken := Some demo_token;
     downloadExpiresAt := Some (JNum 1700000060000) |}.

(** The state after [verify-payment] at [demo_T] (see [demo_paid_reached]). *)
Definition demo_paid : World :=
  {| products_json := sampleProducts;
     payments_json := [("order_abc", demo_paid_record)];
     disk := [download_path "mastering-productivity.pdf"];
     gateway_requests :=
       [Options.mk 19900 "INR" "rcpt_prod-ebook-1_1699999995000" 1] |}.

(** The record after the same payment is verified a second time, an hour
    later, with a new token. *)
Definition demo_paid_record' (token : string) : PaymentRecord :=
  {| status := paid; orderId := "order_abc"; productId := "prod-ebook-1";
     productTitle := "Mastering Productivity (eBook)"; amountINR := 199;
     buyerName := Some "Asha"; buyerEmail := None;
     createdAt := 1699999996000;
     razorpay_payment_id := Some "pay_xyz";
     razorpay_signature := Some demo_signature;
     downloadToken := Some token;
     downloadExpiresAt := Some (JNum 1700003660000) |}.

Definition demo_ebook : Product.t :=
  Product.mk "prod-ebook-1" "Mastering Productivity (eBook)"
    "100 pages of productivity hacks and templates." 199
    "mastering-productivity.pdf" "/assets/ebook-thumb.png".

(** The same ledger after the e-book has been withdrawn from the catalog. *)
Definition demo_withdrawn : World :=
  {| products_json := tl sampleProducts;
     payments_json := payments_json demo_created;
     disk := disk demo_created;
     gateway_requests := gateway_requests demo_created |}.

(** Three later requests: the same payment verified again, a download,
    and an order for the other product. *)
Definition demo_later : list Request :=
  [ VerifyPayment (Some "order_abc") (Some "pay_xyz") (Some demo_signature)
      "q7Lw0ZcA3n-Hk2_TtYb9R5sUeXfPdG1m" (demo_T + 3600000);
    ResolveDownload "q7Lw0ZcA3n-Hk2_TtYb9R5sUeXfPdG1m" (demo_T + 3600001);
    CreateOrder (Some "prod-templates-1") None None
      (fun options =>
         Some (Order.mk "order_def" (Options.amount options)
                 (Options.currency options) (Options.receipt options)))
      (demo_T + 3600002) (demo_T + 3600003) ].

(** ** Predicates used in the statements *)

(** All three fields of the verification payload are present and non-empty. *)
Definition all_present (o p s : option string) : bool :=
  truthy o && truthy p && truthy s.

(** The supplied signature is the HMAC of [order_id + "|" + payment_id]. *)
Definition signature_ok (env : Env) (o p s : option string) : bool :=
  match o, p, s with
  | Some order_id, Some payment_id, Some signature =>
      generated_signature env order_id payment_id =? signature
  | _, _, _ => false
  end.

(** No record of the ledger carries [token]. *)
Definition token_unused (token : string) (payments : Ledger) : Prop :=
  forall r, In r (obj_values payments) -> downloadToken r <> Some token.

(** The gateway of a [create-order] request never answers with order
    identifier [k]. *)
Definition gateway_avoids (k : string) (q : Request) : Prop :=
  match q with
  | CreateOrder _ _ _ gateway _ _ =>
      forall options order, gateway options = Some order -> Order.id order <> k
  | _ => True
  end.

(** [r'] records the same purchase as [r]: the fields written at order
    creation agree. *)
Definition same_purchase (r r' : PaymentRecord) : Prop :=
  orderId r' = orderId r /\ productId r' = productId r
  /\ productTitle r' = productTitle r /\ amountINR r' = amountINR r
  /\ buyerName r' = buyerName r /\ buyerEmail r' = buyerEmail r
  /\ createdAt r' = createdAt r.

(** ** The listing routes of [server.js] *)

(** [GET /api/products]: the answer is the catalog. *)
Definition list_products : M (list Product.t) :=
  prods <- readProducts ;; ret prods.

(** [GET /admin/payments]: the answer is the whole ledger. *)
Definition admin_payments : M Ledger :=
  payments <- readPayments ;; ret payments.

(** [Object.keys(o)] *)
Definition obj_keys {A} (o : obj A) : list string := map fst o.

(** [delete o[k]] *)
Definition obj_delete {A} (k : string) (o : obj A) : obj A :=
  filter (fun e => negb (fst e =? k)) o.

(** The download tokens that the ledger holds, in the order of the scan. *)
Definition record_tokens (r : PaymentRecord) : list string :=
  match downloadToken r with
  | Some t => [t]
  | None => []
  end.

Definition tokens (payments : Ledger) : list string :=
  flat_map record_tokens (obj_values payments).

(** ** The cart and the checkout of [public/app.js]

    [CART] maps a product identifier to a quantity.  The writes to the
    page are given as the values written: [cart_count] is the text of
    [#cart-count], [cart_total] the text of [#cart-total].  As for the
    ledger, the objects only have own properties (no product identifier
    is a name of [Object.prototype]). *)

Definition Cart := obj Z.



(** [delete CART[productId]] *)
Definition removeFromCart (productId : string) (CART : Cart) : Cart :=
  obj_delete productId CART.

(** [Object.values(CART).reduce((s,n)=>s+n,0)] *)
Definition cart_count (CART : Cart) : Z :=
  fold_left js_add (obj_values CART) 0.




(** What the buyer sees at the end of a step of the checkout. *)
Inductive Screen :=
| alert (message : string)
| razorpay_open (order_id key : string)
| download_panel (href : string)
| unhandled_rejection.

(** [onCheckout], up to [rzp.open()]: the first key of the cart is the
    product of the order; [buyerName] and [buyerEmail] are the values of
    the two inputs, [key] is [window.RAZORPAY_KEY_ID]. *)
Definition onCheckout (CART : Cart) (buyerName buyerEmail : string)
    (key : option string) (gateway : Options.t -> option Order.t)
    (now_receipt now_created : Z) : M Screen :=
  match obj_keys CART with
  | [] => ret (alert "Cart empty")
  | productId :: _ =>
      data <- create_order (Some productId) (Some buyerName) (Some buyerEmail)
                gateway now_receipt now_created ;;
      match data with
      | json_order order => ret (razorpay_open (Order.id order) (or_else key ""))
      | _ => ret (alert "Failed to create order")
      end
  end.

(** The [handler] of the checkout options: the gateway's response is
    posted to [/api/verify-payment]; an answer that is not JSON makes
    [verify.json()] reject. *)
Definition payment_handler (env : Env)
    (razorpay_order_id razorpay_payment_id razorpay_signature : option string)
    (token : string) (now : Z) : M Screen :=
  result <- verify_payment env razorpay_order_id razorpay_payment_id
              razorpay_signature token now ;;
  match result with
  | json_verified _ downloadUrl _ _ => ret (download_panel downloadUrl)
  | json_error _ error =>
      ret (alert ("Payment verification failed: " ++ or_else (Some error) "Unknown"))
  | _ => ret unhandled_rejection
  end.

(** ** More predicates for the statements *)

(** Every record that carries [token] is the one under key [k]. *)
Definition token_only_at (token k : string) (payments : Ledger) : Prop :=
  forall k' r, In (k', r) payments -> downloadToken r = Some token -> k' = k.

(** Each [verify-payment] of the sequence is given a token that no record
    carries when it is served. *)
Fixpoint tokens_are_fresh (env : Env) (qs : list Request) (w : World) : Prop :=
  match qs with
  | [] => True
  | q :: rest =>
      match q with
      | VerifyPayment _ _ _ token _ => token_unused token (payments_json w)
      | _ => True
      end
      /\ tokens_are_fresh env rest (snd (handle env q w))
  end.

(** The exact sum of the quantities of a cart, to state bounds. *)
Definition quantity_sum (CART : Cart) : Z :=
  fold_right Z.add 0 (obj_values CART).

(** The demo signature in upper case. *)
Definition demo_signature_upper : string :=
  "EE21698235C31AEF5BB049B86D1C00014DB7DE75DBE78CB4ED9FFA8E90855655".

(** The range of a byte. *)
Definition byte_range (b : Z) : Prop := 0 <= b < 256.

(** A lowercase hexadecimal digit. *)
Definition is_lower_hex (c : ascii) : bool :=
  let n := N_of_ascii c in
  ((48 <=? n)%N && (n <=? 57)%N) || ((97 <=? n)%N && (n <=? 102)%N).

(** An environment whose TTL variable holds no number. *)
Definition demo_env_bad_ttl : Env :=
  {| env_PORT := None;
     env_RAZORPAY_KEY_ID := Some "rzp_test_key";
     env_RAZORPAY_KEY_SECRET := Some "s3cr3t";
     env_BASE_URL := None;
     env_DOWNLOAD_TOKEN_TTL_MIN := Some "one hour" |}.

Definition demo_cart : Cart :=
  [("prod-templates-1", 2); ("prod-ebook-1", 1)].

(** ** Test vectors *)

Example sha256_constants :
  List.length Sha256.K = 64%nat
  /\ firstn 2 Sha256.K = [0x428a2f98; 0x71374491]
  /\ nth 63 Sha256.K 0 = 0xc67178f2
  /\ firstn 2 Sha256.H0 = [0x6a09e667; 0xbb67ae85]
  /\ nth 7 Sha256.H0 0 = 0x5be0cd19.
Proof. vm_compute. repeat split. Qed.

Example sha256_abc :
  Sha256.sha256_hex "abc"
  = "ba7816bf8f01cfea414140de5dae2223b00361a396177a9cb410ff61f20015ad".
Proof. vm_compute. reflexivity. Qed.

Example sha256_two_blocks :
  Sha256.sha256_hex "abcdbcdecdefdefgefghfghighijhijkijkljklmklmnlmnomnopnopq"
  = "248d6a61d20638b8e5c026930c3e6039a33ce45964ff2167f6ecedd419db06c1".
Proof. vm_compute. reflexivity. Qed.

Example hmac_rfc4231_case2 :
  Sha256.hmac_sha256_hex "Jefe" "what do ya want for nothing?"
  = "5bdcc146bf60754e6a042426089575c75a003f089d2739839dec58b964ec3843".
Proof. vm_compute. reflexivity. Qed.

Example demo_signature_is_hmac :
  generated_signature demo_env "order_abc" "pay_xyz" = demo_signature.
Proof. vm_compute. reflexivity. Qed.

Example parseInt10_examples :
  parseInt10 "60" = Some 60 /\ parseInt10 "  -12abc" = Some (-12)
  /\ parseInt10 "abc" = None /\ parseInt10 "" = None.
Proof. vm_compute. repeat split. Qed.

Example obj_set_order :
  obj_set "a" 7 (obj_set "2" 2 (obj_set "b" 1 (obj_set "10" 3 (obj_set "a" 0 []))))
  = [("2", 2); ("10", 3); ("a", 7); ("b", 1)].
Proof. vm_compute. reflexivity. Qed.

Example demo_paid_reached :
  snd (verify_payment demo_env (Some "order_abc") (Some "pay_xyz")
         (Some demo_signature) demo_token demo_T demo_created)
  = demo_paid.
Proof. vm_compute. reflexivity. Qed.

(** ** Arithmetic and object lemmas *)

Lemma round53_exact z : Z.abs z <= 2 ^ 53 -> round53 z = z.
Proof.
  intros Hz. unfold round53.
  destruct (Z.leb_spec (Z.abs z) (2 ^ 53)) as [_ | Hgt]; [reflexivity | lia].
Qed.

Lemma js_mul_exact x y : Z.abs (x * y) <= 2 ^ 53 -> js_mul x y = x * y.
Proof. apply round53_exact. Qed.

Lemma js_add_exact x y : Z.abs (x + y) <= 2 ^ 53 -> js_add x y = x + y.
Proof. apply round53_exact. Qed.

Lemma truthy_Some s : truthy (Some s) = true <-> s <> "".
Proof.
  simpl. destruct (String.eqb_spec s ""); simpl; split; congruence.
Qed.

Section ObjLemmas.

Context {A : Type}.
Implicit Types (o : obj A) (k : string) (v : A).

Lemma obj_get_replace_same k v o a :
  obj_get k o = Some a -> obj_get k (replace k v o) = Some v.
Proof.
  induction o as [| [k' v'] r IH]; simpl; [discriminate |].
  destruct (String.eqb_spec k' k) as [-> | Hne]; simpl.
  - now rewrite String.eqb_refl.
  - intros H. apply String.eqb_neq in Hne. rewrite Hne. auto.
Qed.

Lemma obj_get_replace_other k k' v o :
  k' <> k -> obj_get k' (replace k v o) = obj_get k' o.
Proof.
  intros Hne. induction o as [| [k0 v0] r IH]; simpl; [reflexivity |].
  destruct (String.eqb_spec k0 k) as [-> | Hk]; simpl.
  - apply not_eq_sym, String.eqb_neq in Hne. now rewrite Hne.
  - now rewrite IH.
Qed.

Lemma obj_get_insert_index_same n k v o :
  obj_get k o = None -> obj_get k (insert_index n k v o) = Some v.
Proof.
  induction o as [| [k' v'] r IH]; simpl.
  - now rewrite String.eqb_refl.
  - destruct (String.eqb_spec k' k) as [-> | Hne]; [discriminate |].
    intros H. apply String.eqb_neq in Hne.
    destruct (array_index k') as [m |]; [destruct (m <? n)%Z |]; simpl;
      rewrite ?Hne, ?String.eqb_refl; auto.
Qed.

Lemma obj_get_insert_index_other n k k' v o :
  k' <> k -> obj_get k' (insert_index n k v o) = obj_get k' o.
Proof.
  intros Hne. pose proof Hne as Hb.
  apply not_eq_sym, String.eqb_neq in Hb.
  induction o as [| [k0 v0] r IH]; simpl.
  - now rewrite Hb.
  - destruct (array_index k0) as [m |]; [destruct (m <? n)%Z |]; simpl;
      rewrite ?Hb, ?IH; reflexivity.
Qed.

Lemma obj_get_app_same k v o :
  obj_get k o = None -> obj_get k (o ++ [(k, v)])%list = Some v.
Proof.
  induction o as [| [k' v'] r IH]; simpl.
  - now rewrite String.eqb_refl.
  - destruct (k' =? k); [discriminate | exact IH].
Qed.

Lemma obj_get_app_other k k' v o :
  k' <> k -> obj_get k' (o ++ [(k, v)])%list = obj_get k' o.
Proof.
  intros Hne. apply not_eq_sym, String.eqb_neq in Hne.
  induction o as [| [k0 v0] r IH]; simpl.
  - now rewrite Hne.
  - now rewrite IH.
Qed.

(** Reading back what was just assigned. *)
Lemma obj_get_set_same k v o : obj_get k (obj_set k v o) = Some v.
Proof.
  unfold obj_set. destruct (obj_get k o) as [a |] eqn:Hk.
  - eapply obj_get_replace_same; eauto.
  - destruct (array_index k).
    + now apply obj_get_insert_index_same.
    + now apply obj_get_app_same.
Qed.

(** An assignment leaves the other keys alone. *)
Lemma obj_get_set_other k k' v o :
  k' <> k -> obj_get k' (obj_set k v o) = obj_get k' o.
Proof.
  intros Hne. unfold obj_set. destruct (obj_get k o).
  - now apply obj_get_replace_other.
  - destruct (array_index k).
    + now apply obj_get_insert_index_other.
    + now apply obj_get_app_other.
Qed.

Lemma obj_get_In k o a : obj_get k o = Some a -> In a (obj_values o).
Proof.
  induction o as [| [k' v'] r IH]; simpl; [discriminate |].
  destruct (k' =? k); [intros [= ->]; now left | right; auto].
Qed.

End ObjLemmas.

(** When no record carries [token] and the record under [k] is replaced
    by one that does, the scan by token finds that record. *)
Lemma find_by_token_replace token k (v a : PaymentRecord) (payments : Ledger) :
  obj_get k payments = Some a ->
  token_unused token payments ->
  downloadToken v = Some token ->
  find_by_token token (obj_set k v payments) = Some v.
Proof.
  intros Hget Hfresh Htok. unfold obj_set. rewrite Hget.
  unfold find_by_token, token_unused in *. revert Hget Hfresh.
  induction payments as [| [k' v'] r IH]; simpl; [discriminate |].
  intros Hget Hfresh. destruct (k' =? k); simpl.
  - now rewrite Htok, String.eqb_refl.
  - destruct (downloadToken v') as [t |] eqn:Ht.
    + destruct (String.eqb_spec t token) as [-> | _].
      * exfalso. apply (Hfresh v'); auto.
      * apply IH; auto.
    + apply IH; auto.
Qed.

(** A scan that finds nothing: no record carries the token. *)
Lemma find_by_token_unused token (payments : Ledger) :
  token_unused token payments -> find_by_token token payments = None.
Proof.
  unfold token_unused, find_by_token. intros Hfresh.
  induction (obj_values payments) as [| r rest IH]; simpl; [reflexivity |].
  destruct (downloadToken r) as [t |] eqn:Ht.
  - destruct (String.eqb_spec t token) as [-> | _].
    + exfalso. apply (Hfresh r); simpl; auto.
    + apply IH. intros r' Hin. apply Hfresh. now right.
  - apply IH. intros r' Hin. apply Hfresh. now right.
Qed.

(** ** The download gate *)

Lemma resolve_download_state token now w :
  snd (resolve_download token now w) = w.
Proof.
  unfold resolve_download, bind, readPayments, readProducts, existsSync, ret.
  destruct (find_by_token token (payments_json w)) as [orderEntry |];
    [| reflexivity].
  destruct (js_lt (downloadExpiresAt orderEntry) now); [reflexivity |].
  destruct (find_product (productId orderEntry) (products_json w)) as [product |];
    [| reflexivity].
  destruct (existsb _ (disk w)); reflexivity.
Qed.

(** C7: [resolveDownload] never mutates the ledger.  Whatever the token
    and the time, on the NotFound, Expired and success paths alike, the
    state after the call is the state before it: every record is
    unchanged, and the token is not invalidated (the scan by token finds
    the same record, and any further call is answered as if the first had
    not taken place). *)
Theorem resolve_download_is_read_only (token : string) (now : Z) (w : World) :
  let w' := snd (resolve_download token now w) in
  w' = w
  /\ payments_json w' = payments_json w
  /\ find_by_token token (payments_json w') = find_by_token token (payments_json w)
  /\ forall later, resolve_download token later w' = resolve_download token later w.
Proof.
  cbv zeta. rewrite resolve_download_state. repeat split.
Qed.

(** C5: for a token that equals no record's [downloadToken],
    [resolveDownload] answers 404 (NotFound) and never Expired, whatever
    the expiry times stored in the ledger and whatever the current time. *)
Theorem unknown_token_is_not_found (token : string) (now : Z) (w : World) :
  token_unused token (payments_json w) ->
  let resp := fst (resolve_download token now w) in
  resp = send_text 404 "Invalid or expired download link."
  /\ failure_of resp = Some NotFound
  /\ failure_of resp <> Some Expired.
Proof.
  intros Hfresh. cbv zeta.
  unfold resolve_download, bind, readPayments, ret.
  rewrite (find_by_token_unused _ _ Hfresh). simpl.
  repeat split; discriminate.
Qed.

Lemma unknown_token_is_not_found_witness :
  let resp := fst (resolve_download "no-such-token" (demo_T + 3600000) demo_paid) in
  resp = send_text 404 "Invalid or expired download link."
  /\ failure_of resp = Some NotFound
  /\ failure_of resp <> Some Expired.
Proof.
  apply (unknown_token_is_not_found "no-such-token" (demo_T + 3600000) demo_paid).
  vm_compute. intros r [<- | []]. discriminate.
Defined.

(** C3 (as stated, refuted): at the instant [downloadExpiresAt] itself the
    current time is not strictly less than the expiry, yet the download is
    served and not answered with Expired. *)
Lemma download_at_expiry_instant_is_served :
  find_by_token demo_token (payments_json demo_paid) = Some demo_paid_record
  /\ downloadExpiresAt demo_paid_record = Some (JNum 1700000060000)
  /\ fst (resolve_download demo_token 1700000060000 demo_paid)
     = download "downloads/mastering-productivity.pdf" "mastering-productivity.pdf"
  /\ failure_of (fst (resolve_download demo_token 1700000060000 demo_paid))
     <> Some Expired.
Proof. vm_compute. repeat split. discriminate. Qed.

(** C3 (amended): for a token that resolves to a record with expiry time
    [t], [resolveDownload] fails with Expired exactly when [t] is strictly
    less than the current time; while the current time is at most [t] it
    never answers Expired, and it serves the file provided the product of
    the record is in the catalog and its file exists in the downloads
    directory. *)
Theorem resolve_download_expiry (token : string) (now : Z) (w : World)
    (entry : PaymentRecord) (t : Z) :
  find_by_token token (payments_json w) = Some entry ->
  downloadExpiresAt entry = Some (JNum t) ->
  let resp := fst (resolve_download token now w) in
  (t < now ->
     resp = send_text 410 "Download link has expired."
     /\ failure_of resp = Some Expired)
  /\ (now <= t ->
        failure_of resp <> Some Expired
        /\ forall product,
             find_product (productId entry) (products_json w) = Some product ->
             existsb (String.eqb (download_path (Product.filename product)))
               (disk w) = true ->
             resp = download (download_path (Product.filename product))
                      (Product.filename product)).
Proof.
  intros Hfind Hexp. cbv zeta.
  unfold resolve_download, bind, readPayments, readProducts, existsSync, ret,
    js_lt.
  rewrite Hfind, Hexp.
  destruct (Z.ltb_spec t now) as [Hlt | Hge].
  - split; [intros _; split; reflexivity | lia].
  - split; [lia | intros _].
    destruct (find_product (productId entry) (products_json w)) as [product |].
    + destruct (existsb _ (disk w)) eqn:Hfile;
        cbn [fst negb failure_of Z.eqb Pos.eqb].
      * split; [discriminate |]. now intros product' [= <-] _.
      * split; [discriminate |]. intros product' [= <-] Hf. congruence.
    + cbn [fst failure_of Z.eqb Pos.eqb]. split; discriminate.
Qed.

Lemma resolve_download_expiry_witness :
  let resp := fst (resolve_download demo_token (demo_T + 30000) demo_paid) in
  (1700000060000 < demo_T + 30000 ->
     resp = send_text 410 "Download link has expired."
     /\ failure_of resp = Some Expired)
  /\ (demo_T + 30000 <= 1700000060000 ->
        failure_of resp <> Some Expired
        /\ forall product,
             find_product (productId demo_paid_record) (products_json demo_paid)
             = Some product ->
             existsb (String.eqb (download_path (Product.filename product)))
               (disk demo_paid) = true ->
             resp = download (download_path (Product.filename product))
                      (Product.filename product)).
Proof.
  apply (resolve_download_expiry demo_token (demo_T + 30000) demo_paid
           demo_paid_record 1700000060000).
  - vm_compute. reflexivity.
  - reflexivity.
Defined.

(** ** The order service *)

(** C6: when the gateway call for a valid product fails, [createOrder]
    answers 500 (UpstreamError) and the ledger is exactly the ledger before
    the call. *)
Theorem gateway_failure_writes_nothing (pid : string)
    (name email : option string) (gateway : Options.t -> option Order.t)
    (t1 t2 : Z) (w : World) (product : Product.t) :
  pid <> "" ->
  find_product pid (products_json w) = Some product ->
  gateway (order_options product t1) = None ->
  let r := create_order (Some pid) name email gateway t1 t2 w in
  fst r = json_error 500 "Failed to create order"
  /\ failure_of (fst r) = Some UpstreamError
  /\ payments_json (snd r) = payments_json w.
Proof.
  intros Hpid Hfind Hgw. cbv zeta.
  unfold create_order, bind, readProducts, orders_create, ret.
  apply String.eqb_neq in Hpid. rewrite Hpid, Hfind, Hgw. simpl.
  repeat split.
Qed.

Lemma gateway_failure_writes_nothing_witness :
  let r := create_order (Some "prod-ebook-1") (Some "Asha") None
             (fun _ => None) demo_T demo_T demo_paid in
  fst r = json_error 500 "Failed to create order"
  /\ failure_of (fst r) = Some UpstreamError
  /\ payments_json (snd r) = payments_json demo_paid.
Proof.
  apply (gateway_failure_writes_nothing "prod-ebook-1" (Some "Asha") None
           (fun _ => None) demo_T demo_T demo_paid demo_ebook).
  - discriminate.
  - vm_compute. reflexivity.
  - reflexivity.
Defined.

(** C9: with the seeded catalog, [createOrder] for [prod-ebook-1] (price
    199) sends the gateway exactly one request, for 19900 minor units. *)
Theorem seeded_ebook_charge_is_19900 (payments : option Ledger)
    (files : list string) (name email : option string)
    (gateway : Options.t -> option Order.t) (t1 t2 : Z) :
  gateway_requests
    (snd (create_order (Some "prod-ebook-1") name email gateway t1 t2
            (startup None payments files)))
  = [Options.mk 19900 "INR" ("rcpt_prod-ebook-1_" ++ string_of_Z t1) 1].
Proof.
  unfold create_order, bind, readProducts, readPayments, writePayments,
    orders_create, ret.
  simpl. destruct (gateway _); reflexivity.
Qed.

(** C2 (as stated, refuted): the entry written for the seeded e-book
    (price 199) stores the amount 199, not 199 x 100. *)
Lemma stored_amount_is_not_scaled :
  find_product "prod-ebook-1" (products_json demo_start) = Some demo_ebook
  /\ Product.priceINR demo_ebook = 199
  /\ option_map status (obj_get "order_abc" (payments_json demo_created))
     = Some created
  /\ option_map amountINR (obj_get "order_abc" (payments_json demo_created))
     = Some 199
  /\ option_map amountINR (obj_get "order_abc" (payments_json demo_created))
     <> Some (199 * 100).
Proof. vm_compute. repeat split. discriminate. Qed.

(** C2 (amended): for every valid productId, a successful [createOrder]
    writes, under the gateway's order identifier, a ledger entry whose
    status is [created] and whose stored amount equals product.price
    (unscaled); the x100 minor-unit value is the amount requested from the
    gateway. *)
Theorem create_order_writes_pending_entry (pid : string)
    (name email : option string) (gateway : Options.t -> option Order.t)
    (t1 t2 : Z) (w : World) (product : Product.t) (order : Order.t) :
  pid <> "" ->
  find_product pid (products_json w) = Some product ->
  gateway (order_options product t1) = Some order ->
  Z.abs (Product.priceINR product) * 100 <= 2 ^ 53 ->
  let r := create_order (Some pid) name email gateway t1 t2 w in
  fst r = json_order order
  /\ (exists entry,
        obj_get (Order.id order) (payments_json (snd r)) = Some entry
        /\ status entry = created
        /\ productId entry = Product.id product
        /\ amountINR entry = Product.priceINR product)
  /\ (exists options,
        gateway_requests (snd r) = options :: gateway_requests w
        /\ Options.amount options = Product.priceINR product * 100).
Proof.
  intros Hpid Hfind Hgw Hrange. cbv zeta.
  unfold create_order, bind, readProducts, readPayments, writePayments,
    orders_create, ret.
  apply String.eqb_neq in Hpid. rewrite Hpid, Hfind, Hgw. simpl.
  split; [reflexivity | split].
  - eexists. split; [apply obj_get_set_same | repeat split].
  - eexists. split; [reflexivity |]. simpl. apply js_mul_exact. lia.
Qed.

Lemma create_order_writes_pending_entry_witness :
  let r := create_order (Some "prod-ebook-1") (Some "Asha") None demo_gateway
             (demo_T - 5000) (demo_T - 4000) demo_start in
  let order := Order.mk "order_abc" 19900 "INR" "rcpt_prod-ebook-1_1699999995000" in
  fst r = json_order order
  /\ (exists entry,
        obj_get (Order.id order) (payments_json (snd r)) = Some entry
        /\ status entry = created
        /\ productId entry = Product.id demo_ebook
        /\ amountINR entry = Product.priceINR demo_ebook)
  /\ (exists options,
        gateway_requests (snd r) = options :: gateway_requests demo_start
        /\ Options.amount options = Product.priceINR demo_ebook * 100).
Proof.
  apply (create_order_writes_pending_entry "prod-ebook-1" (Some "Asha") None
           demo_gateway (demo_T - 5000) (demo_T - 4000) demo_start demo_ebook
           (Order.mk "order_abc" 19900 "INR" "rcpt_prod-ebook-1_1699999995000")).
  - discriminate.
  - vm_compute. reflexivity.
  - vm_compute. reflexivity.
  - vm_compute. discriminate.
Defined.

(** ** The verification service *)

Lemma verify_payment_missing env o p s tok now w :
  all_present o p s = false ->
  verify_payment env o p s tok now w = (json_error 400 "Missing parameters", w).
Proof.
  unfold all_present, verify_payment. intros H.
  destruct o as [o |], p as [p |], s as [s |]; try reflexivity.
  destruct (truthy (Some o)), (truthy (Some p)), (truthy (Some s));
    try discriminate; reflexivity.
Qed.

Lemma all_present_inv o p s :
  all_present o p s = true ->
  exists o' p' s',
    o = Some o' /\ p = Some p' /\ s = Some s'
    /\ truthy o = true /\ truthy p = true /\ truthy s = true.
Proof.
  unfold all_present. intros H.
  apply andb_prop in H as [H Hs]. apply andb_prop in H as [Ho Hp].
  destruct o, p, s; try discriminate. eauto 10.
Qed.

Lemma verify_payment_mismatch env o p s tok now w :
  all_present o p s = true ->
  signature_ok env o p s = false ->
  verify_payment env o p s tok now w = (json_error 400 "Invalid signature", w).
Proof.
  intros Hall Hsig.
  destruct (all_present_inv _ _ _ Hall)
    as (o' & p' & s' & -> & -> & -> & Ho & Hp & Hs).
  unfold verify_payment, signature_ok in *. rewrite Ho, Hp, Hs, Hsig.
  reflexivity.
Qed.

Lemma verify_payment_unknown_order env o p s tok now w :
  all_present (Some o) (Some p) (Some s) = true ->
  signature_ok env (Some o) (Some p) (Some s) = true ->
  obj_get o (payments_json w) = None ->
  verify_payment env (Some o) (Some p) (Some s) tok now w
  = (json_error 404 "Order not found on server", w).
Proof.
  intros Hall Hsig Hget.
  destruct (all_present_inv _ _ _ Hall) as (? & ? & ? & _ & _ & _ & Ho & Hp & Hs).
  unfold verify_payment, signature_ok in *. rewrite Ho, Hp, Hs, Hsig.
  unfold bind, readPayments, ret. cbn [negb orb]. cbv beta. now rewrite Hget.
Qed.

(** The path past all three guards: the record is overwritten, then the
    product is looked up for the answer. *)
Lemma verify_payment_known_order env o p s tok now w local :
  all_present (Some o) (Some p) (Some s) = true ->
  signature_ok env (Some o) (Some p) (Some s) = true ->
  obj_get o (payments_json w) = Some local ->
  verify_payment env (Some o) (Some p) (Some s) tok now w
  = (match find_product (productId local) (products_json w) with
     | Some product =>
         json_verified "Payment verified" (BASE_URL env ++ "/download/" ++ tok)
           (Product.id product) (Product.title product)
     | None => uncaught_TypeError
     end,
     with_payments w (obj_set o (mark_paid env local p s tok now) (payments_json w))).
Proof.
  intros Hall Hsig Hget.
  destruct (all_present_inv _ _ _ Hall) as (? & ? & ? & _ & _ & _ & Ho & Hp & Hs).
  unfold verify_payment, signature_ok in *. rewrite Ho, Hp, Hs, Hsig.
  unfold bind, readPayments, writePayments, readProducts, ret.
  cbn [negb orb]. cbv beta. rewrite Hget. cbn [negb orb productId mark_paid with_payments products_json].
  destruct (find_product (productId local) (products_json w)); reflexivity.
Qed.

Lemma all_present_Some o p s :
  o <> "" -> p <> "" -> s <> "" ->
  all_present (Some o) (Some p) (Some s) = true.
Proof.
  intros Ho Hp Hs. unfold all_present.
  now rewrite (proj2 (truthy_Some o) Ho), (proj2 (truthy_Some p) Hp),
    (proj2 (truthy_Some s) Hs).
Qed.

Lemma signature_ok_Some env o p s :
  generated_signature env o p = s ->
  signature_ok env (Some o) (Some p) (Some s) = true.
Proof. intros <-. apply String.eqb_refl. Qed.

(** C1 (as stated, refuted): a signature that equals the HMAC is not
    enough for success (an order the ledger does not know is answered
    404), and a mismatched signature that is the empty string is answered
    InvalidRequest, not SignatureInvalid. *)
Lemma matching_signature_is_not_sufficient :
  generated_signature demo_env "order_abc" "pay_xyz" = demo_signature
  /\ fst (verify_payment demo_env (Some "order_abc") (Some "pay_xyz")
            (Some demo_signature) demo_token demo_T demo_start)
     = json_error 404 "Order not found on server"
  /\ generated_signature demo_env "order_abc" "pay_xyz" <> ""
  /\ failure_of
       (fst (verify_payment demo_env (Some "order_abc") (Some "pay_xyz")
               (Some "") demo_token demo_T demo_created))
     = Some InvalidRequest.
Proof. vm_compute. repeat split. discriminate. Qed.

(** C1 (amended): [verifyPayment] succeeds only if the hex HMAC-SHA256 of
    [orderId + "|" + paymentId] under the shared secret equals the supplied
    signature, and it does succeed when in addition the three inputs are
    non-empty, the order is in the ledger and its product is in the
    catalog.  For every mismatched signature the call fails, with
    SignatureInvalid when the three inputs are non-empty and with
    InvalidRequest otherwise; the state is left unchanged and no token is
    issued. *)
Theorem verify_payment_signature_gate (env : Env) (o p s : option string)
    (tok : string) (now : Z) (w : World) :
  let r := verify_payment env o p s tok now w in
  (succeeds (fst r) = true -> signature_ok env o p s = true)
  /\ (signature_ok env o p s = false ->
        snd r = w
        /\ succeeds (fst r) = false
        /\ failure_of (fst r)
           = Some (if all_present o p s then SignatureInvalid else InvalidRequest))
  /\ (signature_ok env o p s = true ->
      all_present o p s = true ->
      forall order_id local product,
        o = Some order_id ->
        obj_get order_id (payments_json w) = Some local ->
        find_product (productId local) (products_json w) = Some product ->
        succeeds (fst r) = true).
Proof.
  cbv zeta.
  assert (Hbad : signature_ok env o p s = false ->
                 snd (verify_payment env o p s tok now w) = w
                 /\ succeeds (fst (verify_payment env o p s tok now w)) = false
                 /\ failure_of (fst (verify_payment env o p s tok now w))
                    = Some (if all_present o p s
                            then SignatureInvalid else InvalidRequest)).
  { intros Hsig. destruct (all_present o p s) eqn:Hall.
    - rewrite (verify_payment_mismatch _ _ _ _ _ _ _ Hall Hsig). now repeat split.
    - rewrite (verify_payment_missing _ _ _ _ _ _ _ Hall). now repeat split. }
  split; [| split; [exact Hbad |]].
  - intros Hsucc. destruct (signature_ok env o p s) eqn:Hsig; [reflexivity |].
    destruct (Hbad eq_refl) as (_ & Hfail & _). congruence.
  - intros Hsig Hall order_id local product -> Hget Hprod.
    destruct p as [p |]; [| discriminate]. destruct s as [s |]; [| discriminate].
    rewrite (verify_payment_known_order _ _ _ _ _ _ _ _ Hall Hsig Hget), Hprod.
    reflexivity.
Qed.

Lemma verify_payment_signature_gate_witness :
  let o := Some "order_abc" in
  let p := Some "pay_xyz" in
  let s := Some demo_signature in
  let r := verify_payment demo_env o p s demo_token demo_T demo_created in
  (succeeds (fst r) = true -> signature_ok demo_env o p s = true)
  /\ (signature_ok demo_env o p s = false ->
        snd r = demo_created
        /\ succeeds (fst r) = false
        /\ failure_of (fst r)
           = Some (if all_present o p s then SignatureInvalid else InvalidRequest))
  /\ (signature_ok demo_env o p s = true ->
      all_present o p s = true ->
      forall order_id local product,
        o = Some order_id ->
        obj_get order_id (payments_json demo_created) = Some local ->
        find_product (productId local) (products_json demo_created) = Some product ->
        succeeds (fst r) = true).
Proof.
  exact (verify_payment_signature_gate demo_env (Some "order_abc")
           (Some "pay_xyz") (Some demo_signature) demo_token demo_T demo_created).
Defined.

(** What the download gate answers once the scan has found a record. *)
Lemma resolve_download_found token now w entry :
  find_by_token token (payments_json w) = Some entry ->
  resolve_download token now w
  = (if js_lt (downloadExpiresAt entry) now
     then send_text 410 "Download link has expired."
     else
       match find_product (productId entry) (products_json w) with
       | None => send_text 404 "Product not found"
       | Some product =>
           if existsb (String.eqb (download_path (Product.filename product)))
                (disk w)
           then download (download_path (Product.filename product))
                  (Product.filename product)
           else send_text 404 "File not found on server"
       end, w).
Proof.
  intros Hfind.
  unfold resolve_download, bind, readPayments, readProducts, existsSync, ret.
  rewrite Hfind.
  destruct (js_lt (downloadExpiresAt entry) now); [reflexivity |].
  destruct (find_product (productId entry) (products_json w)); [| reflexivity].
  destruct (existsb _ (disk w)); reflexivity.
Qed.

Lemma expiresAt_exact env now ttl :
  DOWNLOAD_TOKEN_TTL_MIN env = Some ttl ->
  0 <= now -> 0 <= ttl -> now + ttl * 60000 <= 2 ^ 53 ->
  expiresAt env now = JNum (now + ttl * 60 * 1000).
Proof.
  intros Httl Hnow Hpos Hmax. unfold expiresAt. rewrite Httl. f_equal.
  rewrite (js_mul_exact ttl 60) by lia.
  rewrite (js_mul_exact (ttl * 60) 1000) by lia.
  apply js_add_exact. lia.
Qed.

(** C8: on a successful [verifyPayment] at time [T], the record holds the
    minted token and the expiry [T + TTL * 60 * 1000], where TTL is the
    configured number of minutes, 60 when the variable is not set; with
    TTL = 1 (the token unused before, the product's file on disk) the
    download succeeds at [T + 30 s] and fails with Expired at [T + 61 s]. *)
Theorem minted_token_expiry (env : Env) (o p s tok : string) (T : Z)
    (w : World) (local : PaymentRecord) (product : Product.t) (ttl : Z) :
  o <> "" -> p <> "" -> s <> "" ->
  generated_signature env o p = s ->
  obj_get o (payments_json w) = Some local ->
  find_product (productId local) (products_json w) = Some product ->
  DOWNLOAD_TOKEN_TTL_MIN env = Some ttl ->
  0 <= T -> 0 <= ttl -> T + ttl * 60000 <= 2 ^ 53 ->
  let r := verify_payment env (Some o) (Some p) (Some s) tok T w in
  succeeds (fst r) = true
  /\ (exists entry,
        obj_get o (payments_json (snd r)) = Some entry
        /\ status entry = paid
        /\ downloadToken entry = Some tok
        /\ downloadExpiresAt entry = Some (JNum (T + ttl * 60 * 1000)))
  /\ (env_DOWNLOAD_TOKEN_TTL_MIN env = None -> ttl = 60)
  /\ (ttl = 1 ->
      token_unused tok (payments_json w) ->
      existsb (String.eqb (download_path (Product.filename product))) (disk w)
      = true ->
      succeeds (fst (resolve_download tok (T + 30000) (snd r))) = true
      /\ failure_of (fst (resolve_download tok (T + 61000) (snd r)))
         = Some Expired).
Proof.
  intros Ho Hp Hs Hsig Hget Hprod Httl HT Hpos Hmax. cbv zeta.
  rewrite (verify_payment_known_order env o p s tok T w local
             (all_present_Some _ _ _ Ho Hp Hs) (signature_ok_Some _ _ _ _ Hsig)
             Hget).
  rewrite Hprod. cbn [fst snd with_payments payments_json].
  pose proof (expiresAt_exact env T ttl Httl HT Hpos Hmax) as Hexp.
  split; [reflexivity | split; [| split]].
  - eexists. split; [apply obj_get_set_same |].
    cbn [mark_paid status downloadToken downloadExpiresAt]. now rewrite Hexp.
  - intros Hnone. unfold DOWNLOAD_TOKEN_TTL_MIN in Httl.
    rewrite Hnone in Httl. vm_compute in Httl. congruence.
  - intros -> Hfresh Hfile.
    assert (Hfound : forall now,
      resolve_download tok now
        (with_payments w
           (obj_set o (mark_paid env local p s tok T) (payments_json w)))
      = (if (T + 60000 <? now)%Z
         then send_text 410 "Download link has expired."
         else download (download_path (Product.filename product))
                (Product.filename product),
         with_payments w
           (obj_set o (mark_paid env local p s tok T) (payments_json w)))).
    { intros now.
      rewrite (resolve_download_found tok now _ (mark_paid env local p s tok T)).
      - cbn [mark_paid downloadExpiresAt productId with_payments products_json
               disk js_lt].
        rewrite Hexp, Hprod, Hfile.
        replace (T + 1 * 60 * 1000) with (T + 60000) by lia. reflexivity.
      - cbn [with_payments payments_json].
        eapply find_by_token_replace; eauto. }
    rewrite !Hfound.
    destruct (Z.ltb_spec (T + 60000) (T + 30000)) as [Hbad | _]; [lia |].
    destruct (Z.ltb_spec (T + 60000) (T + 61000)) as [_ | Hbad]; [| lia].
    split; reflexivity.
Qed.

Lemma minted_token_expiry_witness :
  let r := verify_payment demo_env (Some "order_abc") (Some "pay_xyz")
             (Some demo_signature) demo_token demo_T demo_created in
  succeeds (fst r) = true
  /\ (exists entry,
        obj_get "order_abc" (payments_json (snd r)) = Some entry
        /\ status entry = paid
        /\ downloadToken entry = Some demo_token
        /\ downloadExpiresAt entry = Some (JNum (demo_T + 1 * 60 * 1000)))
  /\ (env_DOWNLOAD_TOKEN_TTL_MIN demo_env = None -> 1 = 60)
  /\ (1 = 1 ->
      token_unused demo_token (payments_json demo_created) ->
      existsb (String.eqb (download_path (Product.filename demo_ebook)))
        (disk demo_created) = true ->
      succeeds (fst (resolve_download demo_token (demo_T + 30000) (snd r))) = true
      /\ failure_of (fst (resolve_download demo_token (demo_T + 61000) (snd r)))
         = Some Expired).
Proof.
  apply (minted_token_expiry demo_env "order_abc" "pay_xyz" demo_signature
           demo_token demo_T demo_created
           (pending_record (Order.mk "order_abc" 19900 "INR"
                              "rcpt_prod-ebook-1_1699999995000")
              demo_ebook (Some "Asha") None (demo_T - 4000))
           demo_ebook 1).
  - discriminate.
  - discriminate.
  - discriminate.
  - vm_compute. reflexivity.
  - vm_compute. reflexivity.
  - vm_compute. reflexivity.
  - vm_compute. reflexivity.
  - vm_compute. discriminate.
  - lia.
  - vm_compute. discriminate.
Defined.

(** The default: without [DOWNLOAD_TOKEN_TTL_MIN] (unset or empty) the
    TTL is 60 minutes. *)
Lemma default_ttl_is_60 env :
  env_DOWNLOAD_TOKEN_TTL_MIN env = None
  \/ env_DOWNLOAD_TOKEN_TTL_MIN env = Some "" ->
  DOWNLOAD_TOKEN_TTL_MIN env = Some 60.
Proof.
  unfold DOWNLOAD_TOKEN_TTL_MIN. intros [-> | ->]; vm_compute; reflexivity.
Qed.

(** C10: a valid [verifyPayment] for an order whose product is no longer
    in the catalog marks the record [paid] and persists the token, then
    fails on the unguarded [product.id]: the answer is an uncaught
    TypeError, none of the documented failures, while the ledger mutation
    is committed.  The same lookup in the download path is guarded: there
    the missing product is answered 404. *)
Theorem verify_payment_product_withdrawn (env : Env) (o p s tok : string)
    (now : Z) (w : World) (local : PaymentRecord) :
  o <> "" -> p <> "" -> s <> "" ->
  generated_signature env o p = s ->
  obj_get o (payments_json w) = Some local ->
  find_product (productId local) (products_json w) = None ->
  let r := verify_payment env (Some o) (Some p) (Some s) tok now w in
  fst r = uncaught_TypeError
  /\ failure_of (fst r) = None
  /\ succeeds (fst r) = false
  /\ (exists entry,
        obj_get o (payments_json (snd r)) = Some entry
        /\ entry = mark_paid env local p s tok now
        /\ status entry = paid
        /\ downloadToken entry = Some tok)
  /\ (forall later,
        token_unused tok (payments_json w) ->
        js_lt (Some (expiresAt env now)) later = false ->
        fst (resolve_download tok later (snd r))
        = send_text 404 "Product not found").
Proof.
  intros Ho Hp Hs Hsig Hget Hprod. cbv zeta.
  rewrite (verify_payment_known_order env o p s tok now w local
             (all_present_Some _ _ _ Ho Hp Hs) (signature_ok_Some _ _ _ _ Hsig)
             Hget).
  rewrite Hprod. cbn [fst snd with_payments payments_json].
  repeat split.
  - eexists. split; [apply obj_get_set_same | repeat split].
  - intros later Hfresh Hlive.
    rewrite (resolve_download_found tok later _ (mark_paid env local p s tok now)).
    + cbn [mark_paid downloadExpiresAt productId with_payments products_json fst].
      now rewrite Hlive, Hprod.
    + cbn [with_payments payments_json].
      eapply find_by_token_replace; eauto.
Qed.

Lemma verify_payment_product_withdrawn_witness :
  let local := pending_record (Order.mk "order_abc" 19900 "INR"
                                 "rcpt_prod-ebook-1_1699999995000")
                 demo_ebook (Some "Asha") None (demo_T - 4000) in
  let r := verify_payment demo_env (Some "order_abc") (Some "pay_xyz")
             (Some demo_signature) demo_token demo_T demo_withdrawn in
  fst r = uncaught_TypeError
  /\ failure_of (fst r) = None
  /\ succeeds (fst r) = false
  /\ (exists entry,
        obj_get "order_abc" (payments_json (snd r)) = Some entry
        /\ entry = mark_paid demo_env local "pay_xyz" demo_signature demo_token demo_T
        /\ status entry = paid
        /\ downloadToken entry = Some demo_token)
  /\ (forall later,
        token_unused demo_token (payments_json demo_withdrawn) ->
        js_lt (Some (expiresAt demo_env demo_T)) later = false ->
        fst (resolve_download demo_token later (snd r))
        = send_text 404 "Product not found").
Proof.
  apply (verify_payment_product_withdrawn demo_env "order_abc" "pay_xyz"
           demo_signature demo_token demo_T demo_withdrawn).
  - discriminate.
  - discriminate.
  - discriminate.
  - vm_compute. reflexivity.
  - vm_compute. reflexivity.
  - vm_compute. reflexivity.
Defined.

(** ** Life cycle of a payment record *)

(** [create-order] touches no key but the gateway's order identifier. *)
Lemma create_order_other_keys k pid name email gateway t1 t2 w :
  gateway_avoids k (CreateOrder pid name email gateway t1 t2) ->
  obj_get k (payments_json (snd (create_order pid name email gateway t1 t2 w)))
  = obj_get k (payments_json w).
Proof.
  intros Havoid. unfold create_order. destruct pid as [pid |]; [| reflexivity].
  destruct (pid =? ""); [reflexivity |].
  unfold bind, readProducts, readPayments, writePayments, orders_create, ret.
  destruct (find_product pid (products_json w)) as [product |]; [| reflexivity].
  destruct (gateway (order_options product t1)) as [order |] eqn:Hgw;
    [| reflexivity].
  cbn [snd with_payments payments_json].
  apply obj_get_set_other. apply not_eq_sym. exact (Havoid _ _ Hgw).
Qed.

(** [verify-payment] either leaves the state alone or overwrites the
    record of its order with [mark_paid]. *)
Lemma verify_payment_effect env o p s tok now w :
  snd (verify_payment env o p s tok now w) = w
  \/ exists order_id payment_id signature local,
       o = Some order_id
       /\ obj_get order_id (payments_json w) = Some local
       /\ snd (verify_payment env o p s tok now w)
          = with_payments w
              (obj_set order_id
                 (mark_paid env local payment_id signature tok now)
                 (payments_json w)).
Proof.
  destruct (all_present o p s) eqn:Hall.
  - destruct (signature_ok env o p s) eqn:Hsig.
    + destruct (all_present_inv _ _ _ Hall)
        as (o' & p' & s' & -> & -> & -> & _).
      destruct (obj_get o' (payments_json w)) as [local |] eqn:Hget.
      * right. exists o', p', s', local.
        rewrite (verify_payment_known_order _ _ _ _ _ _ _ _ Hall Hsig Hget).
        auto.
      * left. now rewrite (verify_payment_unknown_order _ _ _ _ _ _ _ Hall Hsig Hget).
    + left. now rewrite (verify_payment_mismatch _ _ _ _ _ _ _ Hall Hsig).
  - left. now rewrite (verify_payment_missing _ _ _ _ _ _ _ Hall).
Qed.

Lemma same_purchase_refl r : same_purchase r r.
Proof. repeat split. Qed.

Lemma same_purchase_trans r1 r2 r3 :
  same_purchase r1 r2 -> same_purchase r2 r3 -> same_purchase r1 r3.
Proof. unfold same_purchase. intuition congruence. Qed.

(** One request keeps a paid record paid. *)
Lemma handle_keeps_paid env k q w r :
  obj_get k (payments_json w) = Some r ->
  status r = paid ->
  gateway_avoids k q ->
  exists r',
    obj_get k (payments_json (snd (handle env q w))) = Some r'
    /\ status r' = paid /\ same_purchase r r'.
Proof.
  intros Hget Hpaid Havoid.
  destruct q as [pid name email gateway t1 t2 | o p s tok now | tok now];
    cbn [handle].
  - exists r. rewrite (create_order_other_keys k _ _ _ _ _ _ w Havoid).
    auto using same_purchase_refl.
  - destruct (verify_payment_effect env o p s tok now w)
      as [-> | (o' & p' & s' & local & _ & Hlocal & ->)].
    + exists r. auto using same_purchase_refl.
    + cbn [with_payments payments_json].
      destruct (String.eqb_spec k o') as [<- | Hne].
      * exists (mark_paid env local p' s' tok now).
        rewrite obj_get_set_same. rewrite Hget in Hlocal.
        injection Hlocal as <-. repeat split.
      * exists r. rewrite (obj_get_set_other o' k) by assumption.
        auto using same_purchase_refl.
  - exists r. rewrite resolve_download_state.
    auto using same_purchase_refl.
Qed.

(** C4 (as stated, refuted): the paid record of the example is mutated
    again by a second valid [verifyPayment]: token and expiry are
    replaced. *)
Lemma paid_record_is_mutated_again :
  obj_get "order_abc" (payments_json demo_paid) = Some demo_paid_record
  /\ status demo_paid_record = paid
  /\ payments_json
       (snd (verify_payment demo_env (Some "order_abc") (Some "pay_xyz")
               (Some demo_signature) "q7Lw0ZcA3n-Hk2_TtYb9R5sUeXfPdG1m"
               (demo_T + 3600000) demo_paid))
     = [("order_abc", demo_paid_record' "q7Lw0ZcA3n-Hk2_TtYb9R5sUeXfPdG1m")]
  /\ demo_paid_record' "q7Lw0ZcA3n-Hk2_TtYb9R5sUeXfPdG1m" <> demo_paid_record.
Proof. vm_compute. repeat split. discriminate. Qed.

(** C4 (amended): the transition to [paid] is one-way.  Under every
    sequence of [createOrder], [verifyPayment] and [resolveDownload]
    requests in which the gateway issues no second order with the same
    identifier, a record in status [paid] stays in the ledger in status
    [paid] and keeps the fields written at its creation. *)
Theorem paid_stays_paid (env : Env) (k : string) (qs : list Request)
    (w : World) (r : PaymentRecord) :
  obj_get k (payments_json w) = Some r ->
  status r = paid ->
  Forall (gateway_avoids k) qs ->
  exists r',
    obj_get k (payments_json (serve env qs w)) = Some r'
    /\ status r' = paid /\ same_purchase r r'.
Proof.
  intros Hget Hpaid Hqs. revert w r Hget Hpaid.
  induction Hqs as [| q qs Hq _ IH]; intros w r Hget Hpaid; cbn [serve].
  - exists r. auto using same_purchase_refl.
  - destruct (handle_keeps_paid env k q w r Hget Hpaid Hq)
      as (r1 & Hget1 & Hpaid1 & Hsame1).
    destruct (IH _ r1 Hget1 Hpaid1) as (r2 & Hget2 & Hpaid2 & Hsame2).
    exists r2. eauto using same_purchase_trans.
Qed.

Lemma paid_stays_paid_witness :
  exists r',
    obj_get "order_abc" (payments_json (serve demo_env demo_later demo_paid))
    = Some r'
    /\ status r' = paid /\ same_purchase demo_paid_record r'.
Proof.
  apply (paid_stays_paid demo_env "order_abc" demo_later demo_paid
           demo_paid_record).
  - vm_compute. reflexivity.
  - reflexivity.
  - repeat constructor. intros options order [= <-]. discriminate.
Defined.

(** ** Further properties of the handlers *)

Section ObjKeys.

Context {A : Type}.
Implicit Types (o : obj A) (k : string) (v : A).

Lemma obj_keys_replace k v o : obj_keys (replace k v o) = obj_keys o.
Proof.
  induction o as [| [k' v'] r IH]; simpl; [reflexivity |].
  destruct (k' =? k); simpl; [reflexivity | now rewrite IH].
Qed.

Lemma obj_get_None_iff k o : obj_get k o = None <-> ~ In k (obj_keys o).
Proof.
  induction o as [| [k' v'] r IH]; simpl.
  - tauto.
  - destruct (String.eqb_spec k' k) as [-> | Hne].
    + split; [discriminate | intros H; exfalso; auto].
    + rewrite IH. tauto.
Qed.

Lemma In_insert_index n k v o e :
  In e (insert_index n k v o) <-> e = (k, v) \/ In e o.
Proof.
  induction o as [| [k' v'] r IH]; simpl.
  - intuition congruence.
  - destruct (array_index k') as [m |]; [destruct (m <? n)%Z |]; simpl;
      rewrite ?IH; intuition congruence.
Qed.

(** The entries after an assignment, for an object without duplicate keys. *)
Lemma In_obj_set k v o k' v' :
  NoDup (obj_keys o) ->
  In (k', v') (obj_set k v o) <->
  (k' = k /\ v' = v) \/ (k' <> k /\ In (k', v') o).
Proof.
  intros Hnd. unfold obj_set. destruct (obj_get k o) as [a |] eqn:Hget.
  - revert Hnd Hget. induction o as [| [k0 v0] r IH]; simpl; [discriminate |].
    intros Hnd Hget. inversion Hnd as [| ? ? Hnotin Hnd']; subst.
    destruct (String.eqb_spec k0 k) as [-> | Hne]; simpl.
    + split.
      * intros [[= <- <-] | Hin]; [now left | right].
        split; [| now right]. intros ->. apply Hnotin.
        now apply (in_map fst) in Hin.
      * intros [[-> ->] | [Hne [[= <- <-] | Hin]]]; auto. congruence.
    + rewrite (IH Hnd' Hget). split.
      * intros [[= <- <-] | [H | H]]; auto. right. tauto.
      * intros [H | [H1 [[= <- <-] | H2]]]; auto.
  - assert (Hnot : ~ In k (obj_keys o)) by now apply obj_get_None_iff.
    assert (Hin : In (k', v') ((k, v) :: o) <->
                  (k' = k /\ v' = v) \/ (k' <> k /\ In (k', v') o)).
    { simpl. split.
      - intros [[= <- <-] | H]; [now left | right]. split; [| assumption].
        intros ->. apply Hnot. now apply (in_map fst) in H.
      - intros [[-> ->] | [_ H]]; auto. }
    destruct (array_index k).
    + rewrite In_insert_index. simpl in Hin. rewrite <- Hin.
      intuition congruence.
    + rewrite in_app_iff. simpl. simpl in Hin. rewrite <- Hin.
      intuition congruence.
Qed.

Lemma In_obj_keys_iff k o : In k (obj_keys o) <-> obj_get k o <> None.
Proof.
  induction o as [| [k' v'] r IH]; simpl.
  - tauto.
  - destruct (String.eqb_spec k' k) as [-> | Hne].
    + split; [discriminate | auto].
    + rewrite <- IH. tauto.
Qed.

Lemma In_obj_keys_set k v o k' :
  In k' (obj_keys (obj_set k v o)) <-> k' = k \/ In k' (obj_keys o).
Proof.
  rewrite !In_obj_keys_iff.
  destruct (String.eqb_spec k' k) as [-> | Hne].
  - rewrite obj_get_set_same. split; [auto | discriminate].
  - rewrite obj_get_set_other by assumption. tauto.
Qed.

Lemma In_obj_keys_insert_index n k v o k' :
  In k' (obj_keys (insert_index n k v o)) <-> k' = k \/ In k' (obj_keys o).
Proof.
  induction o as [| [k0 v0] r IH]; simpl.
  - intuition congruence.
  - destruct (array_index k0) as [m |]; [destruct (m <? n)%Z |]; simpl;
      rewrite ?IH; intuition congruence.
Qed.

(** An assignment keeps the keys of an object distinct. *)
Lemma NoDup_obj_set k v o :
  NoDup (obj_keys o) -> NoDup (obj_keys (obj_set k v o)).
Proof.
  intros Hnd. unfold obj_set. destruct (obj_get k o) as [a |] eqn:Hget.
  - now rewrite obj_keys_replace.
  - apply obj_get_None_iff in Hget. destruct (array_index k) as [n |].
    + induction o as [| [k0 v0] r IH]; simpl.
      * constructor; [intros [] | constructor].
      * inversion Hnd as [| ? ? Hnotin Hnd']; subst.
        assert (Hk : k0 <> k) by (intros ->; apply Hget; now left).
        assert (Hr : ~ In k (obj_keys r)) by (intros H; apply Hget; now right).
        destruct (array_index k0) as [m |]; [destruct (m <? n)%Z |]; simpl.
        -- constructor; [| now apply IH].
           rewrite In_obj_keys_insert_index. intuition congruence.
        -- constructor; [exact Hget | exact Hnd].
        -- constructor; [exact Hget | exact Hnd].
    + unfold obj_keys. rewrite map_app. simpl.
      apply NoDup_app; [exact Hnd | constructor; [intros [] | constructor] |].
      intros x Hx [<- | []]. now apply Hget.
Qed.

End ObjKeys.

(** X1: [createOrder] contacts the gateway exactly when the productId is
    non-empty and listed in the catalog.  A missing or empty productId is
    answered 400 and an unlisted one 404, and in both cases nothing at all
    changes: no gateway request, no ledger entry. *)
Theorem create_order_validates_before_gateway (pid name email : option string)
    (gateway : Options.t -> option Order.t) (t1 t2 : Z) (w : World) :
  let r := create_order pid name email gateway t1 t2 w in
  (truthy pid = false -> r = (json_error 400 "Missing productId", w))
  /\ (forall s, pid = Some s -> s <> "" ->
        find_product s (products_json w) = None ->
        r = (json_error 404 "Product not found", w))
  /\ ((exists options,
         gateway_requests (snd r) = options :: gateway_requests w)
      <-> exists s product,
            pid = Some s /\ s <> ""
            /\ find_product s (products_json w) = Some product).
Proof.
  cbv zeta. unfold create_order.
  destruct pid as [s |]; cbn [truthy].
  - destruct (String.eqb_spec s "") as [-> | Hne]; cbn [negb].
    + split; [reflexivity | split].
      * intros s' [= <-] H. congruence.
      * split.
        -- intros [options H]. cbn in H.
           apply (f_equal (@List.length _)) in H. simpl in H. lia.
        -- intros (s' & product & [= <-] & H & _). congruence.
    + unfold bind, readProducts, readPayments, writePayments, orders_create, ret.
      destruct (find_product s (products_json w)) as [product |] eqn:Hfind.
      * split; [discriminate | split; [intros s' [= <-] _ H; congruence |]].
        split; [intros _; eauto |]. intros _.
        destruct (gateway (order_options product t1)); cbn; eauto.
      * split; [discriminate | split; [reflexivity |]].
        split.
        -- intros [options H]. cbn in H.
           apply (f_equal (@List.length _)) in H. simpl in H. lia.
        -- intros (s' & product & [= <-] & _ & H). congruence.
  - split; [reflexivity | split; [discriminate |]].
    split.
    + intros [options H]. cbn in H.
      apply (f_equal (@List.length _)) in H. simpl in H. lia.
    + intros (s' & product & H & _). discriminate.
Qed.

(** What one request leaves alone: the catalog and the disk. *)
Lemma handle_keeps_catalog_and_disk env q w :
  products_json (snd (handle env q w)) = products_json w
  /\ disk (snd (handle env q w)) = disk w.
Proof.
  destruct q as [pid name email gateway t1 t2 | o p s tok now | tok now];
    cbn [handle].
  - unfold create_order. destruct pid as [pid |]; [| now split].
    destruct (pid =? ""); [now split |].
    unfold bind, readProducts, readPayments, writePayments, orders_create, ret.
    destruct (find_product pid (products_json w)); [| now split].
    destruct (gateway _); now split.
  - destruct (verify_payment_effect env o p s tok now w)
      as [-> | (? & ? & ? & ? & _ & _ & ->)]; now split.
  - rewrite resolve_download_state. now split.
Qed.

(** X2: no sequence of [createOrder], [verifyPayment] and
    [resolveDownload] requests changes the catalog or the files on disk. *)
Theorem serve_never_writes_catalog_or_disk (env : Env) (qs : list Request)
    (w : World) :
  products_json (serve env qs w) = products_json w
  /\ disk (serve env qs w) = disk w.
Proof.
  revert w. induction qs as [| q qs IH]; intros w; cbn [serve].
  - now split.
  - destruct (IH (snd (handle env q w))) as [-> ->].
    apply handle_keeps_catalog_and_disk.
Qed.

Lemma handle_keeps_keys env q w k :
  In k (obj_keys (payments_json w)) ->
  In k (obj_keys (payments_json (snd (handle env q w)))).
Proof.
  intros Hin.
  destruct q as [pid name email gateway t1 t2 | o p s tok now | tok now];
    cbn [handle].
  - unfold create_order. destruct pid as [pid |]; [| assumption].
    destruct (pid =? ""); [assumption |].
    unfold bind, readProducts, readPayments, writePayments, orders_create, ret.
    destruct (find_product pid (products_json w)); [| assumption].
    destruct (gateway _); [| assumption].
    cbn [snd with_payments payments_json]. apply In_obj_keys_set. now right.
  - destruct (verify_payment_effect env o p s tok now w)
      as [-> | (? & ? & ? & ? & _ & _ & ->)]; [assumption |].
    cbn [with_payments payments_json]. apply In_obj_keys_set. now right.
  - now rewrite resolve_download_state.
Qed.

(** X3: payment records are never deleted: an order identifier that is in
    the ledger is still in the ledger after any sequence of requests. *)
Theorem ledger_entries_are_never_deleted (env : Env) (qs : list Request)
    (w : World) (k : string) :
  In k (obj_keys (payments_json w)) ->
  In k (obj_keys (payments_json (serve env qs w))).
Proof.
  revert w. induction qs as [| q qs IH]; intros w Hin; cbn [serve].
  - assumption.
  - apply IH. now apply handle_keeps_keys.
Qed.

Lemma ledger_entries_are_never_deleted_witness :
  In "order_abc" (obj_keys (payments_json (serve demo_env demo_later demo_paid))).
Proof.
  apply (ledger_entries_are_never_deleted demo_env demo_later demo_paid
           "order_abc").
  simpl. left. reflexivity.
Defined.

(** X4: [verifyPayment] touches one record at most.  Whatever its inputs
    and its answer, the catalog, the disk and the gateway log are
    unchanged, the ledger has the same keys in the same order, and the
    record of every other order is unchanged. *)
Theorem verify_payment_frame (env : Env) (o p s : option string)
    (tok : string) (now : Z) (w : World) :
  let w' := snd (verify_payment env o p s tok now w) in
  products_json w' = products_json w
  /\ disk w' = disk w
  /\ gateway_requests w' = gateway_requests w
  /\ obj_keys (payments_json w') = obj_keys (payments_json w)
  /\ forall k, o <> Some k ->
       obj_get k (payments_json w') = obj_get k (payments_json w).
Proof.
  cbv zeta.
  destruct (verify_payment_effect env o p s tok now w)
    as [-> | (o' & p' & s' & local & -> & Hget & ->)].
  - repeat split.
  - cbn [with_payments products_json disk gateway_requests payments_json].
    repeat split.
    + unfold obj_set. rewrite Hget. apply obj_keys_replace.
    + intros k Hk. apply obj_get_set_other. congruence.
Qed.



(** ** Download tokens *)

Lemma In_obj_values {A} (o : obj A) (v : A) :
  In v (obj_values o) <-> exists k, In (k, v) o.
Proof.
  unfold obj_values. rewrite in_map_iff. split.
  - intros [[k v'] [<- Hin]]. now exists k.
  - intros [k Hin]. now exists (k, v).
Qed.

(** Once the record under [k], the only holder of [token], is overwritten
    by a record with another token or none, no record carries [token]. *)
Lemma token_unused_after_set token k (v : PaymentRecord) (payments : Ledger) :
  NoDup (obj_keys payments) ->
  token_only_at token k payments ->
  downloadToken v <> Some token ->
  token_unused token (obj_set k v payments).
Proof.
  intros Hnd Honly Hv r Hin Hr.
  apply In_obj_values in Hin as [k' Hin].
  apply (In_obj_set k v payments k' r Hnd) in Hin as [[_ ->] | [Hne Hin]].
  - contradiction.
  - apply Hne. eapply Honly; eauto.
Qed.

(** X6: verifying a payment again revokes the link issued before.  When
    the old token resolved to the order's record and to no other, a valid
    [verifyPayment] with a new token makes [resolveDownload] answer 404 for
    the old token at every later time, although it has not expired. *)
Theorem reverification_revokes_previous_token (env : Env)
    (o p s tok old : string) (now later : Z) (w : World)
    (local : PaymentRecord) :
  o <> "" -> p <> "" -> s <> "" ->
  generated_signature env o p = s ->
  NoDup (obj_keys (payments_json w)) ->
  obj_get o (payments_json w) = Some local ->
  find_by_token old (payments_json w) = Some local ->
  token_only_at old o (payments_json w) ->
  tok <> old ->
  fst (resolve_download old later
         (snd (verify_payment env (Some o) (Some p) (Some s) tok now w)))
  = send_text 404 "Invalid or expired download link.".
Proof.
  intros Ho Hp Hs Hsig Hnd Hget _ Honly Hne.
  rewrite (verify_payment_known_order env o p s tok now w local
             (all_present_Some _ _ _ Ho Hp Hs) (signature_ok_Some _ _ _ _ Hsig)
             Hget).
  cbn [snd]. unfold resolve_download, bind, readPayments, ret.
  cbn [with_payments payments_json].
  rewrite find_by_token_unused; [reflexivity |].
  apply token_unused_after_set; auto.
  cbn [mark_paid downloadToken]. congruence.
Qed.

Lemma reverification_revokes_previous_token_witness :
  fst (resolve_download demo_token (demo_T + 2000)
         (snd (verify_payment demo_env (Some "order_abc") (Some "pay_xyz")
                 (Some demo_signature) "q7Lw0ZcA3n-Hk2_TtYb9R5sUeXfPdG1m"
                 (demo_T + 1000) demo_paid)))
  = send_text 404 "Invalid or expired download link.".
Proof.
  apply (reverification_revokes_previous_token demo_env "order_abc" "pay_xyz"
           demo_signature "q7Lw0ZcA3n-Hk2_TtYb9R5sUeXfPdG1m" demo_token
           (demo_T + 1000) (demo_T + 2000) demo_paid demo_paid_record).
  - discriminate.
  - discriminate.
  - discriminate.
  - vm_compute. reflexivity.
  - simpl. constructor; [intros [] | constructor].
  - reflexivity.
  - reflexivity.
  - intros k' r [[= <- <-] | []] _. reflexivity.
  - discriminate.
Defined.

(** X7: [createOrder] does not look for an existing record.  When the
    gateway answers with an order identifier that is already in the
    ledger, the record is replaced by a fresh pending one: its status is
    [created] again, it has no token, and a token that only the old record
    carried is answered 404 from then on. *)
Theorem create_order_resets_existing_order (pid : string)
    (name email : option string) (gateway : Options.t -> option Order.t)
    (t1 t2 : Z) (w : World) (product : Product.t) (order : Order.t)
    (old : PaymentRecord) (tok : string) :
  pid <> "" ->
  find_product pid (products_json w) = Some product ->
  gateway (order_options product t1) = Some order ->
  NoDup (obj_keys (payments_json w)) ->
  obj_get (Order.id order) (payments_json w) = Some old ->
  token_only_at tok (Order.id order) (payments_json w) ->
  let w' := snd (create_order (Some pid) name email gateway t1 t2 w) in
  obj_get (Order.id order) (payments_json w')
  = Some (pending_record order product name email t2)
  /\ obj_keys (payments_json w') = obj_keys (payments_json w)
  /\ forall later,
       fst (resolve_download tok later w')
       = send_text 404 "Invalid or expired download link.".
Proof.
  intros Hpid Hfind Hgw Hnd Hold Honly. cbv zeta.
  unfold create_order, bind, readProducts, readPayments, writePayments,
    orders_create, ret.
  apply String.eqb_neq in Hpid. rewrite Hpid, Hfind, Hgw.
  cbn [snd with_payments payments_json products_json].
  split; [apply obj_get_set_same | split].
  - unfold obj_set. rewrite Hold. apply obj_keys_replace.
  - intros later. unfold resolve_download, bind, readPayments, ret.
    cbn [payments_json].
    rewrite find_by_token_unused; [reflexivity |].
    apply token_unused_after_set; auto. discriminate.
Qed.

Lemma create_order_resets_existing_order_witness :
  let order := Order.mk "order_abc" 19900 "INR" "rcpt_prod-ebook-1_1700000001000" in
  let w' := snd (create_order (Some "prod-ebook-1") None None demo_gateway
                   (demo_T + 1000) (demo_T + 2000) demo_paid) in
  obj_get (Order.id order) (payments_json w')
  = Some (pending_record order demo_ebook None None (demo_T + 2000))
  /\ obj_keys (payments_json w') = obj_keys (payments_json demo_paid)
  /\ forall later,
       fst (resolve_download demo_token later w')
       = send_text 404 "Invalid or expired download link.".
Proof.
  apply (create_order_resets_existing_order "prod-ebook-1" None None
           demo_gateway (demo_T + 1000) (demo_T + 2000) demo_paid demo_ebook
           (Order.mk "order_abc" 19900 "INR" "rcpt_prod-ebook-1_1700000001000")
           demo_paid_record demo_token).
  - discriminate.
  - vm_compute. reflexivity.
  - vm_compute. reflexivity.
  - simpl. constructor; [intros [] | constructor].
  - reflexivity.
  - intros k' r [[= <- <-] | []] _. reflexivity.
Defined.

(** X8: the link that [verifyPayment] answers with serves the purchased
    file.  After a valid call with a token that no record carried, the
    answer names the order's product and the URL [BASE_URL/download/token];
    at every time up to the expiry [T + TTL * 60000] included,
    [resolveDownload] serves the file of that product when it is on disk,
    and after the expiry it answers 410. *)
Theorem minted_link_serves_purchased_file (env : Env) (o p s tok : string)
    (T : Z) (w : World) (local : PaymentRecord) (product : Product.t)
    (ttl : Z) :
  o <> "" -> p <> "" -> s <> "" ->
  generated_signature env o p = s ->
  obj_get o (payments_json w) = Some local ->
  find_product (productId local) (products_json w) = Some product ->
  token_unused tok (payments_json w) ->
  DOWNLOAD_TOKEN_TTL_MIN env = Some ttl ->
  0 <= T -> 0 <= ttl -> T + ttl * 60000 <= 2 ^ 53 ->
  existsb (String.eqb (download_path (Product.filename product))) (disk w)
  = true ->
  let r := verify_payment env (Some o) (Some p) (Some s) tok T w in
  fst r = json_verified "Payment verified" (BASE_URL env ++ "/download/" ++ tok)
            (Product.id product) (Product.title product)
  /\ forall later,
       fst (resolve_download tok later (snd r))
       = if (T + ttl * 60000 <? later)%Z
         then send_text 410 "Download link has expired."
         else download (download_path (Product.filename product))
                (Product.filename product).
Proof.
  intros Ho Hp Hs Hsig Hget Hprod Hfresh Httl HT Hpos Hmax Hfile. cbv zeta.
  rewrite (verify_payment_known_order env o p s tok T w local
             (all_present_Some _ _ _ Ho Hp Hs) (signature_ok_Some _ _ _ _ Hsig)
             Hget).
  rewrite Hprod. cbn [fst snd]. split; [reflexivity |]. intros later.
  rewrite (resolve_download_found tok later _ (mark_paid env local p s tok T)).
  - cbn [mark_paid downloadExpiresAt productId with_payments products_json
           disk js_lt fst].
    rewrite (expiresAt_exact env T ttl Httl HT Hpos Hmax), Hprod, Hfile.
    replace (T + ttl * 60 * 1000) with (T + ttl * 60000) by lia. reflexivity.
  - cbn [with_payments payments_json].
    eapply find_by_token_replace; eauto.
Qed.

Lemma minted_link_serves_purchased_file_witness :
  let r := verify_payment demo_env (Some "order_abc") (Some "pay_xyz")
             (Some demo_signature) demo_token demo_T demo_created in
  fst r = json_verified "Payment verified"
            (BASE_URL demo_env ++ "/download/" ++ demo_token)
            (Product.id demo_ebook) (Product.title demo_ebook)
  /\ forall later,
       fst (resolve_download demo_token later (snd r))
       = if (demo_T + 1 * 60000 <? later)%Z
         then send_text 410 "Download link has expired."
         else download (download_path (Product.filename demo_ebook))
                (Product.filename demo_ebook).
Proof.
  apply (minted_link_serves_purchased_file demo_env "order_abc" "pay_xyz"
           demo_signature demo_token demo_T demo_created
           (pending_record (Order.mk "order_abc" 19900 "INR"
                              "rcpt_prod-ebook-1_1699999995000")
              demo_ebook (Some "Asha") None (demo_T - 4000))
           demo_ebook 1).
  - discriminate.
  - discriminate.
  - discriminate.
  - vm_compute. reflexivity.
  - vm_compute. reflexivity.
  - vm_compute. reflexivity.
  - vm_compute. intros r [<- | []]. discriminate.
  - vm_compute. reflexivity.
  - vm_compute. discriminate.
  - lia.
  - vm_compute. discriminate.
  - vm_compute. reflexivity.
Defined.

(** X9: when [DOWNLOAD_TOKEN_TTL_MIN] does not start with a number, the
    expiry is [NaN] and is stored as [null]; the payment is still marked
    paid and answered with a link, but the link is dead on arrival:
    [resolveDownload] answers 410 (Expired) at every positive time. *)
Theorem unparsable_ttl_expires_at_once (env : Env) (o p s tok : string)
    (T : Z) (w : World) (local : PaymentRecord) (product : Product.t) :
  o <> "" -> p <> "" -> s <> "" ->
  generated_signature env o p = s ->
  obj_get o (payments_json w) = Some local ->
  find_product (productId local) (products_json w) = Some product ->
  token_unused tok (payments_json w) ->
  DOWNLOAD_TOKEN_TTL_MIN env = None ->
  let r := verify_payment env (Some o) (Some p) (Some s) tok T w in
  succeeds (fst r) = true
  /\ forall later, 0 < later ->
       fst (resolve_download tok later (snd r))
       = send_text 410 "Download link has expired.".
Proof.
  intros Ho Hp Hs Hsig Hget Hprod Hfresh Httl. cbv zeta.
  rewrite (verify_payment_known_order env o p s tok T w local
             (all_present_Some _ _ _ Ho Hp Hs) (signature_ok_Some _ _ _ _ Hsig)
             Hget).
  rewrite Hprod. cbn [fst snd]. split; [reflexivity |]. intros later Hlater.
  rewrite (resolve_download_found tok later _ (mark_paid env local p s tok T)).
  - cbn [mark_paid downloadExpiresAt fst]. unfold expiresAt. rewrite Httl.
    cbn [js_lt]. destruct (Z.ltb_spec 0 later); [reflexivity | lia].
  - cbn [with_payments payments_json].
    eapply find_by_token_replace; eauto.
Qed.

Lemma unparsable_ttl_expires_at_once_witness :
  let r := verify_payment demo_env_bad_ttl (Some "order_abc") (Some "pay_xyz")
             (Some demo_signature) demo_token demo_T demo_created in
  succeeds (fst r) = true
  /\ forall later, 0 < later ->
       fst (resolve_download demo_token later (snd r))
       = send_text 410 "Download link has expired.".
Proof.
  apply (unparsable_ttl_expires_at_once demo_env_bad_ttl "order_abc" "pay_xyz"
           demo_signature demo_token demo_T demo_created
           (pending_record (Order.mk "order_abc" 19900 "INR"
                              "rcpt_prod-ebook-1_1699999995000")
              demo_ebook (Some "Asha") None (demo_T - 4000))
           demo_ebook).
  - discriminate.
  - discriminate.
  - discriminate.
  - vm_compute. reflexivity.
  - vm_compute. reflexivity.
  - vm_compute. reflexivity.
  - vm_compute. intros r [<- | []]. discriminate.
  - vm_compute. reflexivity.
Defined.

(** X10: [resolveDownload] serves a file exactly when the token is carried
    by a record, the first such record is not expired, its product is in
    the catalog and the product's file is on disk; the expiry is checked
    first, so an expired link is answered 410 even when the product or
    the file is gone. *)
Theorem resolve_download_succeeds_iff (token : string) (now : Z) (w : World) :
  (succeeds (fst (resolve_download token now w)) = true
   <-> exists entry product,
         find_by_token token (payments_json w) = Some entry
         /\ js_lt (downloadExpiresAt entry) now = false
         /\ find_product (productId entry) (products_json w) = Some product
         /\ existsb (String.eqb (download_path (Product.filename product)))
              (disk w) = true)
  /\ (forall entry,
        find_by_token token (payments_json w) = Some entry ->
        js_lt (downloadExpiresAt entry) now = true ->
        fst (resolve_download token now w)
        = send_text 410 "Download link has expired.").
Proof.
  destruct (find_by_token token (payments_json w)) as [entry |] eqn:Hfind.
  - rewrite (resolve_download_found token now w entry Hfind). cbn [fst].
    split.
    + destruct (js_lt (downloadExpiresAt entry) now) eqn:Hlt.
      * split; [discriminate |].
        intros (e & product & He & H & _). congruence.
      * destruct (find_product (productId entry) (products_json w))
          as [product |] eqn:Hprod.
        -- destruct (existsb _ (disk w)) eqn:Hfile.
           ++ split; [intros _; eauto 10 | reflexivity].
           ++ split; [discriminate |].
              intros (e & product' & He & _ & Hp' & H). congruence.
        -- split; [discriminate |].
           intros (e & product' & He & _ & H & _). congruence.
    + intros e [= <-] ->. reflexivity.
  - split; [| discriminate].
    unfold resolve_download, bind, readPayments, ret. rewrite Hfind.
    split; [discriminate |]. intros (e & product & H & _). discriminate.
Qed.

Lemma find_product_unique_id (products : list Product.t) (p : Product.t) :
  NoDup (map Product.id products) ->
  In p products ->
  find_product (Product.id p) products = Some p.
Proof.
  unfold find_product. induction products as [| q rest IH]; simpl;
    [intros _ [] |].
  intros Hnd [-> | Hin].
  - now rewrite String.eqb_refl.
  - inversion Hnd as [| ? ? Hnotin Hnd']; subst.
    destruct (String.eqb_spec (Product.id q) (Product.id p)) as [Heq | _].
    + exfalso. apply Hnotin. rewrite Heq. now apply in_map.
    + auto.
Qed.

(** X11: every product that [GET /api/products] lists can be ordered.  In
    a catalog with distinct identifiers, [createOrder] for the identifier
    of a listed product passes validation and asks the gateway for that
    product's own price, times 100, in INR with auto-capture. *)
Theorem listed_product_can_be_ordered (p : Product.t)
    (name email : option string) (gateway : Options.t -> option Order.t)
    (t1 t2 : Z) (w : World) :
  NoDup (map Product.id (products_json w)) ->
  In p (fst (list_products w)) ->
  Product.id p <> "" ->
  gateway_requests
    (snd (create_order (Some (Product.id p)) name email gateway t1 t2 w))
  = Options.mk (js_mul (Product.priceINR p) 100) "INR"
      ("rcpt_" ++ Product.id p ++ "_" ++ string_of_Z t1) 1
    :: gateway_requests w.
Proof.
  intros Hnd Hin Hid. cbn in Hin.
  unfold create_order, bind, readProducts, readPayments, writePayments,
    orders_create, ret.
  apply String.eqb_neq in Hid. rewrite Hid.
  rewrite (find_product_unique_id _ _ Hnd Hin).
  destruct (gateway _); reflexivity.
Qed.

Lemma listed_product_can_be_ordered_witness :
  gateway_requests
    (snd (create_order (Some (Product.id demo_ebook)) None None demo_gateway
            demo_T demo_T demo_start))
  = Options.mk (js_mul (Product.priceINR demo_ebook) 100) "INR"
      ("rcpt_" ++ Product.id demo_ebook ++ "_" ++ string_of_Z demo_T) 1
    :: gateway_requests demo_start.
Proof.
  apply (listed_product_can_be_ordered demo_ebook None None demo_gateway
           demo_T demo_T demo_start).
  - simpl. repeat constructor; simpl; intuition discriminate.
  - simpl. left. reflexivity.
  - discriminate.
Defined.

Lemma NoDup_app_disjoint {A} (l1 l2 : list A) (x : A) :
  NoDup (l1 ++ l2) -> In x l1 -> ~ In x l2.
Proof.
  induction l1 as [| a l1 IH]; simpl; [intros _ [] |].
  intros Hnd [-> | Hin] Hx; apply NoDup_cons_iff in Hnd as [Hnotin Hnd].
  - apply Hnotin. apply in_or_app. now right.
  - now apply (IH Hnd Hin).
Qed.

Lemma token_unused_iff token (payments : Ledger) :
  token_unused token payments <-> ~ In token (tokens payments).
Proof.
  unfold token_unused, tokens. rewrite in_flat_map. split.
  - intros H (r & Hin & Hr). apply (H r Hin).
    unfold record_tokens in Hr. destruct (downloadToken r); simpl in Hr;
      intuition congruence.
  - intros H r Hin Hr. apply H. exists r. split; [assumption |].
    unfold record_tokens. rewrite Hr. now left.
Qed.

Lemma tokens_cons k (v : PaymentRecord) (l : Ledger) :
  tokens ((k, v) :: l) = (record_tokens v ++ tokens l)%list.
Proof. reflexivity. Qed.

Lemma In_tokens_replace k (v : PaymentRecord) (l : Ledger) x :
  In x (tokens (replace k v l)) -> In x (record_tokens v) \/ In x (tokens l).
Proof.
  induction l as [| [k0 v0] r IH]; simpl replace; [intros [] |].
  destruct (k0 =? k); rewrite !tokens_cons, !in_app_iff; [tauto |].
  intros [H | H]; [tauto |]. apply IH in H. tauto.
Qed.

(** Replacing a record by one whose token is new keeps the tokens of the
    ledger distinct. *)
Lemma NoDup_tokens_replace k (v : PaymentRecord) (l : Ledger) :
  NoDup (tokens l) ->
  NoDup (record_tokens v) ->
  (forall x, In x (record_tokens v) -> ~ In x (tokens l)) ->
  NoDup (tokens (replace k v l)).
Proof.
  induction l as [| [k0 v0] r IH]; simpl replace; [constructor |].
  intros Hnd Hv Hnew. rewrite tokens_cons in Hnd.
  destruct (k0 =? k); rewrite tokens_cons.
  - apply NoDup_app; [assumption | now apply NoDup_app_remove_l in Hnd |].
    intros x Hx Hin. apply (Hnew x Hx). rewrite tokens_cons.
    apply in_or_app. now right.
  - apply NoDup_app.
    + now apply NoDup_app_remove_r in Hnd.
    + apply IH; [now apply NoDup_app_remove_l in Hnd | assumption |].
      intros x Hx Hin. apply (Hnew x Hx). rewrite tokens_cons.
      apply in_or_app. now right.
    + intros x Hx Hin. apply In_tokens_replace in Hin as [Hin | Hin].
      * apply (Hnew x Hin). rewrite tokens_cons. apply in_or_app. now left.
      * exact (NoDup_app_disjoint _ _ x Hnd Hx Hin).
Qed.

Lemma tokens_insert_index n k (v : PaymentRecord) (l : Ledger) :
  record_tokens v = [] -> tokens (insert_index n k v l) = tokens l.
Proof.
  intros Hv. induction l as [| [k0 v0] r IH]; simpl insert_index.
  - rewrite tokens_cons, Hv. reflexivity.
  - destruct (array_index k0) as [m |]; [destruct (m <? n)%Z |];
      rewrite !tokens_cons, ?IH, ?Hv; reflexivity.
Qed.

Lemma tokens_app_last k (v : PaymentRecord) (l : Ledger) :
  record_tokens v = [] -> tokens (l ++ [(k, v)])%list = tokens l.
Proof.
  intros Hv. unfold tokens, obj_values. rewrite map_app, flat_map_app.
  simpl. rewrite Hv. now rewrite !app_nil_r.
Qed.

Lemma handle_keeps_tokens_distinct env q w :
  NoDup (tokens (payments_json w)) ->
  match q with
  | VerifyPayment _ _ _ token _ => token_unused token (payments_json w)
  | _ => True
  end ->
  NoDup (tokens (payments_json (snd (handle env q w)))).
Proof.
  intros Hnd Hfresh.
  destruct q as [pid name email gateway t1 t2 | o p s tok now | tok now];
    cbn [handle].
  - unfold create_order. destruct pid as [pid |]; [| assumption].
    destruct (pid =? ""); [assumption |].
    unfold bind, readProducts, readPayments, writePayments, orders_create, ret.
    destruct (find_product pid (products_json w)) as [product |]; [| assumption].
    destruct (gateway _) as [order |]; [| assumption].
    cbn [snd with_payments payments_json]. unfold obj_set.
    destruct (obj_get (Order.id order) (payments_json w)).
    + apply NoDup_tokens_replace; [assumption | constructor | intros x []].
    + destruct (array_index (Order.id order)).
      * now rewrite tokens_insert_index.
      * now rewrite tokens_app_last.
  - destruct (verify_payment_effect env o p s tok now w)
      as [-> | (o' & p' & s' & local & _ & Hget & ->)]; [assumption |].
    cbn [with_payments payments_json]. unfold obj_set. rewrite Hget.
    apply NoDup_tokens_replace; [assumption | |].
    + repeat constructor. intros [].
    + intros x [<- | []]. now apply token_unused_iff.
  - now rewrite resolve_download_state.
Qed.

(** X12: download tokens stay distinct.  If no two records of the ledger
    carry the same token and every [verifyPayment] is given a token that
    no record carries at that moment, then after any sequence of requests
    no two records carry the same token. *)
Theorem tokens_stay_distinct (env : Env) (qs : list Request) (w : World) :
  NoDup (tokens (payments_json w)) ->
  tokens_are_fresh env qs w ->
  NoDup (tokens (payments_json (serve env qs w))).
Proof.
  revert w. induction qs as [| q qs IH]; intros w Hnd Hfresh; cbn [serve].
  - assumption.
  - destruct Hfresh as [Hq Hrest]. apply IH; [| assumption].
    now apply handle_keeps_tokens_distinct.
Qed.

Lemma tokens_stay_distinct_witness :
  NoDup (tokens (payments_json (serve demo_env demo_later demo_paid))).
Proof.
  apply (tokens_stay_distinct demo_env demo_later demo_paid).
  - simpl. repeat constructor. intros [].
  - vm_compute. repeat split. intros r [<- | []]. discriminate.
Defined.

(** ** The format of a signature *)

Lemma be_bytes_range n x : Forall byte_range (Sha256.be_bytes n x).
Proof.
  induction n as [| n IH]; simpl; constructor; [| exact IH].
  unfold byte_range. change 255 with (Z.ones 8).
  rewrite Z.land_ones by lia. apply Z.mod_pos_bound. lia.
Qed.

Lemma be_bytes_length n x : List.length (Sha256.be_bytes n x) = n.
Proof. induction n as [| n IH]; simpl; congruence. Qed.

Lemma blocks_length fuel h ws :
  List.length h = 8%nat -> List.length (Sha256.blocks fuel h ws) = 8%nat.
Proof.
  revert h ws. induction fuel as [| fuel IH]; intros h ws Hh;
    cbn [Sha256.blocks]; [assumption |].
  destruct ws; [assumption |]. apply IH. unfold Sha256.compress. reflexivity.
Qed.

Lemma sha256_length msg : List.length (Sha256.sha256 msg) = 32%nat.
Proof.
  unfold Sha256.sha256.
  assert (H : forall l, List.length (flat_map (Sha256.be_bytes 4) l)
                        = (4 * List.length l)%nat).
  { induction l as [| a l IH]; cbn [flat_map]; [reflexivity |].
    rewrite length_app, be_bytes_length, IH. cbn [List.length]. lia. }
  rewrite H, blocks_length; [reflexivity |]. vm_compute. reflexivity.
Qed.

Lemma sha256_range msg : Forall byte_range (Sha256.sha256 msg).
Proof.
  unfold Sha256.sha256. induction (Sha256.blocks _ _ _) as [| a l IH];
    cbn [flat_map]; [constructor |].
  apply Forall_app. split; [apply be_bytes_range | exact IH].
Qed.

Lemma hex_digit_is_lower_hex d :
  0 <= d < 16 -> is_lower_hex (Sha256.hex_digit d) = true.
Proof.
  intros Hd.
  assert (H : d = 0 \/ d = 1 \/ d = 2 \/ d = 3 \/ d = 4 \/ d = 5 \/ d = 6
              \/ d = 7 \/ d = 8 \/ d = 9 \/ d = 10 \/ d = 11 \/ d = 12
              \/ d = 13 \/ d = 14 \/ d = 15) by lia.
  repeat (destruct H as [-> | H]; [reflexivity |]). subst. reflexivity.
Qed.

Lemma hex_format bs :
  Forall byte_range bs ->
  String.length (Sha256.hex bs) = (2 * List.length bs)%nat
  /\ forallb is_lower_hex (list_ascii_of_string (Sha256.hex bs)) = true.
Proof.
  induction 1 as [| b bs Hb _ [IHlen IHhex]]; [now split |].
  cbn [Sha256.hex String.length List.length list_ascii_of_string forallb].
  rewrite IHlen, IHhex. split; [lia |].
  unfold byte_range in Hb.
  rewrite !hex_digit_is_lower_hex; [reflexivity | |].
  - change 15 with (Z.ones 4). rewrite Z.land_ones by lia.
    apply Z.mod_pos_bound. lia.
  - rewrite Z.shiftr_div_pow2 by lia. change (2 ^ 4) with 16.
    split; [apply Z.div_pos; lia | apply Z.div_lt_upper_bound; lia].
Qed.

Lemma generated_signature_format env o p :
  String.length (generated_signature env o p) = 64%nat
  /\ forallb is_lower_hex (list_ascii_of_string (generated_signature env o p))
     = true.
Proof.
  unfold generated_signature, Sha256.hmac_sha256_hex, Sha256.hmac.
  cbv zeta.
  match goal with
  | |- context [Sha256.hex (Sha256.sha256 ?m)] =>
      destruct (hex_format _ (sha256_range m)) as [Hlen Hhex];
      rewrite sha256_length in Hlen
  end.
  split; assumption.
Qed.

(** X13: the signature the server computes is always 64 lowercase
    hexadecimal digits, whatever the secret, the order and the payment
    identifiers; so a [verifyPayment] whose signature has another length
    or holds any other character (an uppercase digit, say) is answered
    "Invalid signature" and changes nothing. *)
Theorem signature_is_64_lowercase_hex_digits (env : Env) (o p s tok : string)
    (now : Z) (w : World) :
  o <> "" -> p <> "" -> s <> "" ->
  String.length s <> 64%nat
  \/ forallb is_lower_hex (list_ascii_of_string s) = false ->
  String.length (generated_signature env o p) = 64%nat
  /\ forallb is_lower_hex (list_ascii_of_string (generated_signature env o p))
     = true
  /\ verify_payment env (Some o) (Some p) (Some s) tok now w
     = (json_error 400 "Invalid signature", w).
Proof.
  intros Ho Hp Hs Hbad.
  pose proof (generated_signature_format env o p) as Hfmt.
  destruct Hfmt as [Hlen Hhex]. split; [exact Hlen | split; [exact Hhex |]].
  apply verify_payment_mismatch.
  - now apply all_present_Some.
  - unfold signature_ok. apply String.eqb_neq. intros Heq.
    rewrite Heq in Hlen, Hhex. destruct Hbad; congruence.
Qed.

Lemma signature_is_64_lowercase_hex_digits_witness :
  String.length (generated_signature demo_env "order_abc" "pay_xyz") = 64%nat
  /\ forallb is_lower_hex
       (list_ascii_of_string (generated_signature demo_env "order_abc" "pay_xyz"))
     = true
  /\ verify_payment demo_env (Some "order_abc") (Some "pay_xyz")
       (Some demo_signature_upper) demo_token demo_T demo_created
     = (json_error 400 "Invalid signature", demo_created).
Proof.
  apply (signature_is_64_lowercase_hex_digits demo_env "order_abc" "pay_xyz"
           demo_signature_upper demo_token demo_T demo_created).
  - discriminate.
  - discriminate.
  - discriminate.
  - right. vm_compute. reflexivity.
Defined.

(** ** The cart *)


Lemma round53_0 : round53 0 = 0.
Proof. reflexivity. Qed.

(** Adding non-negative quantities below [2^53] is exact. *)
Lemma fold_js_add_exact (l : list Z) (a : Z) :
  Forall (fun q => 0 <= q) l ->
  0 <= a ->
  a + fold_right Z.add 0 l <= 2 ^ 53 ->
  fold_left js_add l a = a + fold_right Z.add 0 l.
Proof.
  intros Hl. revert a. induction Hl as [| q l Hq Hl IH]; intros a Ha Hmax; simpl.
  - lia.
  - assert (Hsum : 0 <= fold_right Z.add 0 l).
    { clear -Hl. induction Hl; simpl; lia. }
    simpl in Hmax. rewrite js_add_exact by lia. rewrite IH; lia.
Qed.

Section ObjValues.

Context {A : Type}.
Implicit Types (o : obj A) (k : string) (v : A).

Lemma In_obj_values_set k v o x :
  In x (obj_values (obj_set k v o)) -> x = v \/ In x (obj_values o).
Proof.
  unfold obj_set. destruct (obj_get k o).
  - induction o as [| [k0 v0] r IH]; simpl; [tauto |].
    destruct (k0 =? k); simpl; [intuition | intuition].
  - destruct (array_index k) as [n |].
    + rewrite !In_obj_values. intros [k' Hin].
      apply In_insert_index in Hin as [[= _ ->] | Hin]; eauto.
    + unfold obj_values. rewrite map_app, in_app_iff. simpl. intuition.
Qed.

Lemma obj_get_delete_same k o : obj_get k (obj_delete k o) = None.
Proof.
  unfold obj_delete. induction o as [| [k0 v0] r IH]; simpl; [reflexivity |].
  destruct (String.eqb_spec k0 k) as [-> | Hne]; simpl; [exact IH |].
  apply String.eqb_neq in Hne. now rewrite Hne.
Qed.

Lemma obj_get_delete_other k k' o :
  k' <> k -> obj_get k' (obj_delete k o) = obj_get k' o.
Proof.
  intros Hne. unfold obj_delete.
  induction o as [| [k0 v0] r IH]; simpl; [reflexivity |].
  destruct (String.eqb_spec k0 k) as [-> | Hk]; simpl.
  - apply not_eq_sym, String.eqb_neq in Hne. now rewrite Hne.
  - now rewrite IH.
Qed.

Lemma obj_delete_absent k o : obj_get k o = None -> obj_delete k o = o.
Proof.
  unfold obj_delete. induction o as [| [k0 v0] r IH]; simpl; [reflexivity |].
  destruct (k0 =? k); [discriminate |]. intros H. simpl. now rewrite IH.
Qed.

End ObjValues.


Lemma quantity_sum_delete k (CART : Cart) :
  NoDup (obj_keys CART) ->
  quantity_sum (obj_delete k CART)
  = quantity_sum CART - match obj_get k CART with Some q => q | None => 0 end.
Proof.
  unfold quantity_sum, obj_delete.
  induction CART as [| [k0 q0] r IH]; simpl; [reflexivity |].
  intros Hnd. inversion Hnd as [| ? ? Hnotin Hnd']; subst.
  destruct (String.eqb_spec k0 k) as [-> | Hne]; simpl.
  - apply obj_get_None_iff in Hnotin.
    pose proof (obj_delete_absent k r Hnotin) as Habs.
    unfold obj_delete in Habs. rewrite Habs. lia.
  - rewrite (IH Hnd'). lia.
Qed.

Lemma Forall_values_delete (P : Z -> Prop) k (CART : Cart) :
  Forall P (obj_values CART) -> Forall P (obj_values (obj_delete k CART)).
Proof.
  unfold obj_values, obj_delete. rewrite !Forall_forall.
  intros H x Hx. apply H. apply in_map_iff in Hx as [e [<- He]].
  apply filter_In in He as [He _]. now apply in_map.
Qed.

Lemma quantity_sum_nonneg (CART : Cart) :
  Forall (fun q => 0 <= q) (obj_values CART) -> 0 <= quantity_sum CART.
Proof.
  unfold quantity_sum. induction 1; simpl; lia.
Qed.

Lemma cart_count_exact (CART : Cart) :
  Forall (fun q => 0 <= q) (obj_values CART) ->
  quantity_sum CART <= 2 ^ 53 ->
  cart_count CART = quantity_sum CART.
Proof.
  intros Hq Hmax. unfold cart_count.
  rewrite fold_js_add_exact; unfold quantity_sum in *; auto; lia.
Qed.



(** X15: [removeFromCart] drops the whole line of a product, whatever its
    quantity: the product is no longer in the cart, the other lines are
    unchanged, the count falls by the quantity of the line, and removing a
    product that is not in the cart changes nothing. *)
Theorem remove_from_cart_drops_the_line (productId : string) (CART : Cart) :
  NoDup (obj_keys CART) ->
  Forall (fun q => 0 <= q) (obj_values CART) ->
  quantity_sum CART <= 2 ^ 53 ->
  obj_get productId (removeFromCart productId CART) = None
  /\ (forall other, other <> productId ->
        obj_get other (removeFromCart productId CART) = obj_get other CART)
  /\ cart_count (removeFromCart productId CART)
     = cart_count CART
       - match obj_get productId CART with Some q => q | None => 0 end
  /\ (obj_get productId CART = None -> removeFromCart productId CART = CART).
Proof.
  intros Hnd Hq Hmax. unfold removeFromCart.
  pose proof (quantity_sum_nonneg CART Hq) as Hsum.
  assert (Hold : 0 <= match obj_get productId CART with
                      | Some q => q | None => 0 end).
  { destruct (obj_get productId CART) as [q |] eqn:Hget; [| lia].
    apply obj_get_In in Hget. rewrite Forall_forall in Hq. now apply Hq. }
  split; [apply obj_get_delete_same | split; [| split]].
  - intros other Hne. now apply obj_get_delete_other.
  - rewrite (cart_count_exact CART) by auto.
    rewrite cart_count_exact.
    + now apply quantity_sum_delete.
    + now apply Forall_values_delete.
    + rewrite quantity_sum_delete by assumption. lia.
  - apply obj_delete_absent.
Qed.

Lemma remove_from_cart_drops_the_line_witness :
  obj_get "prod-templates-1" (removeFromCart "prod-templates-1" demo_cart) = None
  /\ (forall other, other <> "prod-templates-1" ->
        obj_get other (removeFromCart "prod-templates-1" demo_cart)
        = obj_get other demo_cart)
  /\ cart_count (removeFromCart "prod-templates-1" demo_cart)
     = cart_count demo_cart
       - match obj_get "prod-templates-1" demo_cart with
         | Some q => q | None => 0 end
  /\ (obj_get "prod-templates-1" demo_cart = None ->
      removeFromCart "prod-templates-1" demo_cart = demo_cart).
Proof.
  apply (remove_from_cart_drops_the_line "prod-templates-1" demo_cart).
  - simpl. repeat constructor; simpl; intuition discriminate.
  - simpl. repeat constructor; lia.
  - vm_compute. discriminate.
Defined.

(** ** The cart against the catalog *)



Lemma find_product_some k l p :
  find_product k l = Some p -> In p l /\ Product.id p = k.
Proof.
  unfold find_product. intros H. apply find_some in H as [Hin Hid].
  split; [assumption | now apply String.eqb_eq].
Qed.







(** ** From the cart to the download *)

Lemma token_unused_set_other token k (v : PaymentRecord) (payments : Ledger) :
  token_unused token payments ->
  downloadToken v <> Some token ->
  token_unused token (obj_set k v payments).
Proof.
  intros Hfresh Hv r Hin.
  apply In_obj_values_set in Hin as [-> | Hin]; [assumption | now apply Hfresh].
Qed.

(** What [onCheckout] does for a cart whose first line is a listed
    product, when the gateway answers. *)
Lemma onCheckout_first_line CART name email key gateway t1 t2 w k rest
    product order :
  obj_keys CART = k :: rest ->
  k <> "" ->
  find_product k (products_json w) = Some product ->
  gateway (order_options product t1) = Some order ->
  onCheckout CART name email key gateway t1 t2 w
  = (razorpay_open (Order.id order) (or_else key ""),
     {| products_json := products_json w;
        payments_json :=
          obj_set (Order.id order)
            (pending_record order product (Some name) (Some email) t2)
            (payments_json w);
        disk := disk w;
        gateway_requests := order_options product t1 :: gateway_requests w |}).
Proof.
  intros Hkeys Hk Hfind Hgw. unfold onCheckout. rewrite Hkeys.
  unfold create_order, bind, readProducts, readPayments, writePayments,
    orders_create, ret.
  apply String.eqb_neq in Hk. rewrite Hk, Hfind, Hgw. reflexivity.
Qed.

(** X18: the checkout orders the first line of the cart only.  For a cart
    whose first key is a listed product, [onCheckout] sends one gateway
    request, for the unit price of that product times 100, and stores one
    pending record for it; the quantities and the other lines of the cart
    play no part, so the charge differs from the total shown in the cart
    as soon as the cart holds more than one unit. *)
Theorem checkout_orders_the_first_line_only (CART : Cart)
    (name email : string) (key : option string)
    (gateway : Options.t -> option Order.t) (t1 t2 : Z) (w : World)
    (k : string) (rest : list string) (product : Product.t)
    (order : Order.t) :
  obj_keys CART = k :: rest ->
  k <> "" ->
  find_product k (products_json w) = Some product ->
  gateway (order_options product t1) = Some order ->
  let r := onCheckout CART name email key gateway t1 t2 w in
  fst r = razorpay_open (Order.id order) (or_else key "")
  /\ gateway_requests (snd r)
     = Options.mk (js_mul (Product.priceINR product) 100) "INR"
         ("rcpt_" ++ k ++ "_" ++ string_of_Z t1) 1
       :: gateway_requests w
  /\ obj_get (Order.id order) (payments_json (snd r))
     = Some (pending_record order product (Some name) (Some email) t2)
  /\ forall other, other <> Order.id order ->
       obj_get other (payments_json (snd r)) = obj_get other (payments_json w).
Proof.
  intros Hkeys Hk Hfind Hgw. cbv zeta.
  rewrite (onCheckout_first_line CART name email key gateway t1 t2 w k rest
             product order Hkeys Hk Hfind Hgw).
  cbn [fst snd gateway_requests payments_json].
  destruct (find_product_some _ _ _ Hfind) as [_ Hid].
  split; [reflexivity | split; [| split]].
  - unfold order_options. now rewrite Hid.
  - apply obj_get_set_same.
  - intros other Hne. now apply obj_get_set_other.
Qed.

Lemma checkout_orders_the_first_line_only_witness :
  let order := Order.mk "order_abc" 49900 "INR"
                 "rcpt_prod-templates-1_1700000000000" in
  let r := onCheckout demo_cart "Asha" "" None demo_gateway demo_T demo_T
             demo_start in
  fst r = razorpay_open (Order.id order) (or_else None "")
  /\ gateway_requests (snd r)
     = Options.mk (js_mul (Product.priceINR (nth 1 sampleProducts demo_ebook)) 100)
         "INR" ("rcpt_" ++ "prod-templates-1" ++ "_" ++ string_of_Z demo_T) 1
       :: gateway_requests demo_start
  /\ obj_get (Order.id order) (payments_json (snd r))
     = Some (pending_record order (nth 1 sampleProducts demo_ebook)
               (Some "Asha") (Some "") demo_T)
  /\ forall other, other <> Order.id order ->
       obj_get other (payments_json (snd r))
       = obj_get other (payments_json demo_start).
Proof.
  apply (checkout_orders_the_first_line_only demo_cart "Asha" "" None
           demo_gateway demo_T demo_T demo_start "prod-templates-1"
           ["prod-ebook-1"] (nth 1 sampleProducts demo_ebook)
           (Order.mk "order_abc" 49900 "INR"
              "rcpt_prod-templates-1_1700000000000")).
  - reflexivity.
  - discriminate.
  - vm_compute. reflexivity.
  - vm_compute. reflexivity.
Defined.

(** X19: the whole flow delivers the file of the first product of the
    cart.  After [onCheckout] for a cart whose first key is a listed
    product, a correctly signed gateway response given to the payment
    handler shows the download panel with [BASE_URL/download/token], and
    that link serves the product's file at every time up to the expiry
    (the token unused before, the file on disk). *)
Theorem checkout_flow_delivers_first_product (env : Env) (CART : Cart)
    (name email : string) (key : option string)
    (gateway : Options.t -> option Order.t) (t1 t2 : Z) (w : World)
    (k : string) (rest : list string) (product : Product.t) (order : Order.t)
    (payment_id tok : string) (T ttl later : Z) :
  obj_keys CART = k :: rest ->
  k <> "" ->
  find_product k (products_json w) = Some product ->
  gateway (order_options product t1) = Some order ->
  Order.id order <> "" ->
  payment_id <> "" ->
  token_unused tok (payments_json w) ->
  DOWNLOAD_TOKEN_TTL_MIN env = Some ttl ->
  0 <= T -> 0 <= ttl -> T + ttl * 60000 <= 2 ^ 53 ->
  later <= T + ttl * 60000 ->
  existsb (String.eqb (download_path (Product.filename product))) (disk w)
  = true ->
  let w1 := snd (onCheckout CART name email key gateway t1 t2 w) in
  let r2 := payment_handler env (Some (Order.id order)) (Some payment_id)
              (Some (generated_signature env (Order.id order) payment_id))
              tok T w1 in
  fst r2 = download_panel (BASE_URL env ++ "/download/" ++ tok)
  /\ fst (resolve_download tok later (snd r2))
     = download (download_path (Product.filename product))
         (Product.filename product).
Proof.
  intros Hkeys Hk Hfind Hgw Hoid Hpay Hfresh Httl HT Hpos Hmax Hlater Hfile.
  cbv zeta.
  rewrite (onCheckout_first_line CART name email key gateway t1 t2 w k rest
             product order Hkeys Hk Hfind Hgw).
  cbn [snd]. unfold payment_handler, bind.
  destruct (find_product_some _ _ _ Hfind) as [_ Hid].
  assert (Hsig : generated_signature env (Order.id order) payment_id <> "").
  { intros Heq.
    destruct (generated_signature_format env (Order.id order) payment_id)
      as [Hlen _].
    rewrite Heq in Hlen. discriminate. }
  set (pending := pending_record order product (Some name) (Some email) t2).
  rewrite (verify_payment_known_order env (Order.id order) payment_id _ tok T _
             pending (all_present_Some _ _ _ Hoid Hpay Hsig)
             (signature_ok_Some _ _ _ _ eq_refl)).
  2: { cbn [payments_json]. apply obj_get_set_same. }
  cbn [products_json pending pending_record productId].
  rewrite Hid, Hfind. cbn [ret fst snd]. split; [reflexivity |].
  rewrite (resolve_download_found tok later _
             (mark_paid env pending payment_id
                (generated_signature env (Order.id order) payment_id) tok T)).
  - cbn [mark_paid downloadExpiresAt productId with_payments products_json
           disk js_lt fst pending pending_record].
    rewrite (expiresAt_exact env T ttl Httl HT Hpos Hmax), Hid, Hfind, Hfile.
    destruct (Z.ltb_spec (T + ttl * 60 * 1000) later); [lia | reflexivity].
  - cbn [with_payments payments_json].
    eapply find_by_token_replace.
    + apply obj_get_set_same.
    + apply token_unused_set_other; [assumption | discriminate].
    + reflexivity.
Qed.

Lemma checkout_flow_delivers_first_product_witness :
  let product := nth 1 sampleProducts demo_ebook in
  let order := Order.mk "order_abc" 49900 "INR"
                 "rcpt_prod-templates-1_1700000000000" in
  let w := startup None None [download_path "ui-kit-templates.zip"] in
  let w1 := snd (onCheckout demo_cart "Asha" "" None demo_gateway demo_T
                   demo_T w) in
  let r2 := payment_handler demo_env (Some (Order.id order)) (Some "pay_xyz")
              (Some (generated_signature demo_env (Order.id order) "pay_xyz"))
              demo_token (demo_T + 1000) w1 in
  fst r2 = download_panel (BASE_URL demo_env ++ "/download/" ++ demo_token)
  /\ fst (resolve_download demo_token (demo_T + 31000) (snd r2))
     = download (download_path (Product.filename product))
         (Product.filename product).
Proof.
  apply (checkout_flow_delivers_first_product demo_env demo_cart "Asha" ""
           None demo_gateway demo_T demo_T
           (startup None None [download_path "ui-kit-templates.zip"])
           "prod-templates-1" ["prod-ebook-1"] (nth 1 sampleProducts demo_ebook)
           (Order.mk "order_abc" 49900 "INR"
              "rcpt_prod-templates-1_1700000000000")
           "pay_xyz" demo_token (demo_T + 1000) 1 (demo_T + 31000)).
  - reflexivity.
  - discriminate.
  - vm_compute. reflexivity.
  - vm_compute. reflexivity.
  - discriminate.
  - discriminate.
  - intros r [].
  - vm_compute. reflexivity.
  - vm_compute. discriminate.
  - lia.
  - vm_compute. discriminate.
  - vm_compute. discriminate.
  - vm_compute. reflexivity.
Defined.

(** ** Reading the configuration *)

Ltac read_digit :=
  unfold Sha256.bytes_of_string in *;
  cbn [list_ascii_of_string map digits];
  match goal with
  | |- context [Z.of_N (N_of_ascii ?ch)] =>
      let v := eval vm_compute in (Z.of_N (N_of_ascii ch)) in
      change (Z.of_N (N_of_ascii ch)) with v;
      replace ((48 <=? v)%Z && (v <=? 57)%Z) with true by reflexivity
  end.

Lemma digits_of_uint_acc (d : Decimal.uint) (acc : positive) :
  digits (Some (Z.pos acc))
    (Sha256.bytes_of_string (NilEmpty.string_of_uint d))
  = Some (Z.pos (Pos.of_uint_acc d acc)).
Proof.
  revert acc. induction d; intros acc;
    cbn [NilEmpty.string_of_uint Pos.of_uint_acc]; [reflexivity | ..];
    read_digit;
    match goal with
    | |- digits (Some ?x) _ = Some (Z.pos (Pos.of_uint_acc _ ?a)) =>
        replace x with (Z.pos a) by lia
    end;
    apply IHd.
Qed.

Lemma digits_of_uint_from_zero (d : Decimal.uint) :
  digits (Some 0) (Sha256.bytes_of_string (NilEmpty.string_of_uint d))
  = Some (Z.of_N (Pos.of_uint d)).
Proof.
  induction d; cbn [NilEmpty.string_of_uint Pos.of_uint]; [reflexivity | ..];
    read_digit; [exact IHd | ..];
    cbn [Z.of_N];
    match goal with
    | |- digits (Some ?x) _ = Some (Z.pos (Pos.of_uint_acc ?d ?a)) =>
        change x with (Z.pos a);
        exact (digits_of_uint_acc d a)
    end.
Qed.

(** The decimal digits of a positive number are read back as that number;
    no white space is skipped and no sign is taken. *)
Lemma parse_decimal_of_positive (p : positive) :
  let cs := Sha256.bytes_of_string (NilEmpty.string_of_uint (Pos.to_uint p)) in
  skip_ws (List.length cs) cs = cs
  /\ match cs with
     | 45 :: r => (-1, r)
     | 43 :: r => (1, r)
     | _ => (1, cs)
     end = (1, cs)
  /\ digits None cs = Some (Z.pos p)
  /\ NilEmpty.string_of_uint (Pos.to_uint p) <> "".
Proof.
  cbv zeta. pose proof (DecimalPos.Unsigned.of_to p) as Hval.
  pose proof (digits_of_uint_from_zero (Pos.to_uint p)) as Hdig.
  rewrite Hval in Hdig. cbn [Z.of_N] in Hdig.
  destruct (Pos.to_uint p) as [| d | d | d | d | d | d | d | d | d | d];
    [discriminate Hval | ..];
    cbn [NilEmpty.string_of_uint] in *;
    unfold Sha256.bytes_of_string in *;
    cbn [list_ascii_of_string map] in *;
    match goal with
    | |- context [Z.of_N (N_of_ascii ?ch)] =>
        let v := eval vm_compute in (Z.of_N (N_of_ascii ch)) in
        change (Z.of_N (N_of_ascii ch)) with v in *
    end;
    (split; [reflexivity | split; [reflexivity | split; [| discriminate]]]);
    exact Hdig.
Qed.

Lemma string_of_positive (p : positive) :
  NilZero.string_of_uint (Pos.to_uint p)
  = NilEmpty.string_of_uint (Pos.to_uint p).
Proof.
  pose proof (DecimalPos.Unsigned.to_uint_nonnil p) as Hnil.
  destruct (Pos.to_uint p); [contradiction | reflexivity ..].
Qed.

Lemma parseInt10_string_of_Z (n : Z) :
  Z.abs n <= 2 ^ 53 ->
  parseInt10 (string_of_Z n) = Some n /\ string_of_Z n <> "".
Proof.
  intros Hn. unfold string_of_Z. destruct n as [| p | p];
    cbn [Z.to_int NilZero.string_of_int].
  - split; [vm_compute; reflexivity | discriminate].
  - rewrite string_of_positive.
    destruct (parse_decimal_of_positive p) as (Hws & Hsign & Hdig & Hne).
    split; [| exact Hne].
    unfold parseInt10. rewrite Hws, Hsign, Hdig.
    f_equal. apply round53_exact. lia.
  - rewrite string_of_positive.
    destruct (parse_decimal_of_positive p) as (_ & _ & Hdig & _).
    split; [| discriminate].
    unfold parseInt10.
    change (Sha256.bytes_of_string
              (String "-" (NilEmpty.string_of_uint (Pos.to_uint p))))
      with (45 :: Sha256.bytes_of_string
                    (NilEmpty.string_of_uint (Pos.to_uint p)))%list.
    cbn [List.length skip_ws]. rewrite Hdig.
    f_equal. apply round53_exact. lia.
Qed.

(** X20: the TTL is read back from its decimal form.  When
    [DOWNLOAD_TOKEN_TTL_MIN] holds the decimal digits of an integer [n]
    (up to [2^53] in absolute value, zero and negative numbers included),
    [parseInt] yields [n] and the configured TTL is [n] minutes. *)
Theorem ttl_is_read_from_decimal (env : Env) (n : Z) :
  Z.abs n <= 2 ^ 53 ->
  env_DOWNLOAD_TOKEN_TTL_MIN env = Some (string_of_Z n) ->
  parseInt10 (string_of_Z n) = Some n
  /\ DOWNLOAD_TOKEN_TTL_MIN env = Some n.
Proof.
  intros Hn Henv. destruct (parseInt10_string_of_Z n Hn) as [Hparse Hne].
  split; [exact Hparse |].
  unfold DOWNLOAD_TOKEN_TTL_MIN. rewrite Henv. unfold or_else.
  apply String.eqb_neq in Hne. now rewrite Hne.
Qed.

Lemma ttl_is_read_from_decimal_witness :
  parseInt10 (string_of_Z 1) = Some 1
  /\ DOWNLOAD_TOKEN_TTL_MIN demo_env = Some 1.
Proof.
  apply (ttl_is_read_from_decimal demo_env 1).
  - vm_compute. discriminate.
  - reflexivity.
Defined.

Lemma append_cancel_l (a b c : string) : a ++ b = a ++ c -> b = c.
Proof.
  induction a as [| ch a IH]; simpl; [auto |]. intros [= H]. auto.
Qed.

(** X21: the receipt of a gateway order tells the milliseconds apart: for
    one product, two [createOrder] calls get the same receipt exactly when
    [Date.now()] gave them the same time, so receipts collide within one
    millisecond and only then. *)
Theorem receipts_collide_only_within_a_millisecond (product : Product.t)
    (t1 t2 : Z) :
  Z.abs t1 <= 2 ^ 53 -> Z.abs t2 <= 2 ^ 53 ->
  (Options.receipt (order_options product t1)
   = Options.receipt (order_options product t2)
   <-> t1 = t2).
Proof.
  intros H1 H2. split; [| now intros ->].
  unfold order_options. cbn [Options.receipt]. intros Heq.
  do 3 apply append_cancel_l in Heq.
  destruct (parseInt10_string_of_Z t1 H1) as [P1 _].
  destruct (parseInt10_string_of_Z t2 H2) as [P2 _].
  rewrite Heq in P1. congruence.
Qed.

Lemma receipts_collide_only_within_a_millisecond_witness :
  Options.receipt (order_options demo_ebook demo_T)
  = Options.receipt (order_options demo_ebook (demo_T + 1))
  <-> demo_T = demo_T + 1.
Proof.
  apply (receipts_collide_only_within_a_millisecond demo_ebook demo_T
           (demo_T + 1)).
  - vm_compute. discriminate.
  - vm_compute. discriminate.
Defined.
